(** * TigerPackageIo: the blocking I/O hook of [tiger_io_hook.cpp]

    A shallow embedding of [TigerPackageIo] (Init, Open by file ID, Read,
    Write, Close, GetBlockSize) and of the handle tagging it relies on,
    followed by the properties of the handle space, the package store and
    the transfer paths.

    Target: 64-bit Windows, as the source's use of [::ReadFile], [OVERLAPPED]
    and [HANDLE] implies. [int] is 32 bits, [size_t], [uint64_t] and
    [AkFileHandle] (a [HANDLE]) are 64 bits. Unsigned values are kept in [Z]
    and every wrap-around the C++ performs is written out. [printf] and
    [wprintf] calls are logging and are left out, but for the pointer the
    name-based open reads for its log line; [AKASSERT] is a diagnostic
    that does not change the value a method returns. *)

From Stdlib Require Import ZArith Lia Bool.
From Stdlib.Strings Require Import Byte.
From Stdlib.Strings Require Import String.
From stdpp Require Import gmap list.

Local Open Scope Z_scope.

(** ** Machine integers *)

Definition wrap_uint32 (z : Z) : Z := z mod 2 ^ 32.
Definition wrap_uint64 (z : Z) : Z := z mod 2 ^ 64.
Definition wrap_int32 (z : Z) : Z := (z + 2 ^ 31) mod 2 ^ 32 - 2 ^ 31.
Definition wrap_int64 (z : Z) : Z := (z + 2 ^ 63) mod 2 ^ 64 - 2 ^ 63.

Definition SIZE_MAX : Z := 2 ^ 64 - 1.
Definition UINT64_MAX : Z := 2 ^ 64 - 1.
Definition UINT32_MAX : Z := 2 ^ 32 - 1.

(** [std::vector<uint8_t>::max_size()]: a request above it makes the
    constructor throw [std::length_error]. *)
Definition vector_max_size : Z := 2 ^ 63 - 1.

(** ** SDK types used by the hook *)

Inductive AKRESULT : Type :=
  | AK_NotImplemented
  | AK_Success
  | AK_Fail
  | AK_InvalidParameter
  | AK_FileNotFound
  | AK_FilePermissionError.

(** [AkFileDesc]. [hFile] is the pointer-sized handle, read back by the hook
    as [uint64_t(in_fileDesc.hFile)]; [pCustomParam] is a pointer, 0 for
    NULL. *)
Record AkFileDesc : Type := mkAkFileDesc {
  iFileSize : Z;          (* AkInt64 *)
  uSector : Z;            (* AkUInt32 *)
  uCustomParamSize : Z;   (* AkUInt32 *)
  pCustomParam : Z;
  hFile : Z;              (* AkFileHandle *)
  deviceID : Z            (* AkDeviceID *)
}.

(** [AkIOTransferInfo]: a 64-bit file position and 32-bit sizes. *)
Record AkIOTransferInfo : Type := mkAkIOTransferInfo {
  uFilePosition : Z;      (* AkUInt64 *)
  uBufferSize : Z;        (* AkUInt32 *)
  uRequestedSize : Z      (* AkUInt32 *)
}.

Definition transfer_in_range (ti : AkIOTransferInfo) : Prop :=
  0 <= uFilePosition ti <= UINT64_MAX /\
  0 <= uBufferSize ti <= UINT32_MAX /\
  0 <= uRequestedSize ti <= UINT32_MAX.

(** [AkDeviceSettings]: [Init] reads the scheduler flags only. *)
Record AkDeviceSettings : Type := mkAkDeviceSettings {
  uSchedulerTypeFlags : Z (* AkUInt32 *)
}.

(** [AkFileSystemFlags]: the name-based open reads [uCacheID] through the
    pointer it is given. *)
Record AkFileSystemFlags : Type := mkAkFileSystemFlags {
  uCacheID : Z            (* AkUInt32 *)
}.

(** [AkDeviceDesc], filled by [GetDeviceDesc]. *)
Module DeviceDesc.
Record AkDeviceDesc : Type := mkAkDeviceDesc {
  deviceID : Z;           (* AkDeviceID *)
  bCanWrite : bool;
  bCanRead : bool;
  szDeviceName : list byte;
  uStringSize : Z         (* AkUInt32 *)
}.
End DeviceDesc.

(** The characters of [AKTEXT("TigerPackageIo")]. *)
Definition szDeviceName_text : list byte :=
  [x54; x69; x67; x65; x72; x50; x61; x63; x6b; x61; x67; x65; x49; x6f].

(** The private members of [TigerPackageIo]. *)
Record TigerPackageIo : Type := mkTigerPackageIo {
  m_deviceID : Z;                         (* AkDeviceID *)
  m_packageFiles : gmap Z (list byte);    (* unordered_map<uint64_t, vector<uint8_t>> *)
  m_nextPackageFileID : Z                 (* uint64_t *)
}.

(** How a call ends: it returns, the vector constructor throws, or the
    [memcpy] touches memory outside the object it was given. *)
Inductive outcome (A : Type) : Type :=
  | Returns (a : A)
  | ThrowsLengthError
  | UndefinedAccess.
Arguments Returns {A} a.
Arguments ThrowsLengthError {A}.
Arguments UndefinedAccess {A}.

(** ** Handle space *)

(** [#define FILE_HANDLE_PACKAGE_BIT (1 << 31)]: an [int] expression. *)
Definition FILE_HANDLE_PACKAGE_BIT : Z := wrap_int32 (Z.shiftl 1 31).

(** The macro and its complement as they enter a [uint64_t] operation: the
    [int] operand is converted to [uint64_t]. *)
Definition package_bit_mask : Z := wrap_uint64 FILE_HANDLE_PACKAGE_BIT.
Definition package_key_mask : Z := wrap_uint64 (Z.lnot FILE_HANDLE_PACKAGE_BIT).

(** [(AkFileHandle)(fileId | FILE_HANDLE_PACKAGE_BIT)] in [Open]. *)
Definition package_handle (fileId : Z) : Z := Z.lor fileId package_bit_mask.

(** [uFile & FILE_HANDLE_PACKAGE_BIT] as a condition, in [Read] and [Close]. *)
Definition handle_is_package (uFile : Z) : bool :=
  negb (Z.land uFile package_bit_mask =? 0).

(** [uFile & ~FILE_HANDLE_PACKAGE_BIT] in [Read] and [Close]. *)
Definition handle_file_id (uFile : Z) : Z := Z.land uFile package_key_mask.

(** The two tests together: the tag, and the key or the native value. *)
Definition decode_handle (uFile : Z) : bool * Z :=
  if handle_is_package uFile then (true, handle_file_id uFile) else (false, uFile).

(** The keys that fit below the tag. *)
Definition key_in_range (k : Z) : Prop := 0 <= k < 2 ^ 31.

(** ** Buffers *)

(** A callee given a pointer to [buf] wrote [written] from its start. *)
Definition store_bytes (buf written : list byte) : list byte :=
  take (length buf) written ++ drop (length written) buf.

(** [memcpy(dst, src.data() + offset, n)]: defined only when the [n] bytes
    read lie inside [src] and the [n] bytes written lie inside [dst]. *)
Definition memcpy (dst src : list byte) (offset n : Z) : option (list byte) :=
  if (0 <=? offset) && (0 <=? n) && (offset + n <=? Z.of_nat (length src))
     && (n <=? Z.of_nat (length dst))
  then Some (take (Z.to_nat n) (drop (Z.to_nat offset) src) ++ drop (Z.to_nat n) dst)
  else None.


(** ** A concrete environment

    The collaborators of the hook are external: the asset-delivery source,
    the native file primitives and the streaming manager. The hook is
    defined below over any such environment; this module fixes one, used to
    run the hook on concrete inputs. *)
Module Scenario.

(** Delivery source: ID [0x10] is a 4-byte asset, every other ID is
    unknown and reported as [SIZE_MAX]. *)
Definition asset : list byte := [x01; x02; x03; x04].

Definition file_size_by_id (id : Z) : Z :=
  if id =? 16 then 4 else SIZE_MAX.

Definition read_file_by_id (id size : Z) : AKRESULT * list byte :=
  if id =? 16 then (AK_Success, take (Z.to_nat size) asset) else (AK_Fail, []).

(** Native files: the open handles and the bytes behind each. A
    synchronous read that crosses the end of the file reports success and
    the bytes that were there. *)
Definition World : Type := gmap Z (list byte).

Definition file_offset (Offset OffsetHigh : Z) : Z := Offset + OffsetHigh * 2 ^ 32.

Definition ReadFile (w : World) (h n Offset OffsetHigh : Z) : bool * list byte * World :=
  match w !! h with
  | None => (false, [], w)
  | Some content =>
      (true, take (Z.to_nat n) (drop (Z.to_nat (file_offset Offset OffsetHigh)) content), w)
  end.

Definition WriteFile (w : World) (h : Z) (data : list byte) (n Offset OffsetHigh : Z)
  : bool * Z * World :=
  match w !! h with
  | None => (false, 0, w)
  | Some content =>
      let pos := Z.to_nat (file_offset Offset OffsetHigh) in
      let head := take pos (content ++ replicate (pos - length content)%nat x00) in
      let tail := drop (pos + Z.to_nat n)%nat content in
      (true, n, <[h := head ++ take (Z.to_nat n) data ++ tail]> w)
  end.

Definition CloseFile (w : World) (h : Z) : AKRESULT * World :=
  match w !! h with
  | None => (AK_Fail, w)
  | Some _ => (AK_Success, delete h w)
  end.

(** Streaming manager: the registered resolver and the hooks of the
    devices created so far; a device's identity is its index. *)
Record StreamMgr : Type := mkStreamMgr {
  resolver : option Z;
  devices : list Z
}.

Definition AK_SCHEDULER_BLOCKING : Z := 1.
Definition AK_SCHEDULER_DEFERRED_LINED_UP : Z := 2.
Definition AK_INVALID_DEVICE_ID : Z := UINT32_MAX.

Definition GetFileLocationResolver (mgr : StreamMgr) : option Z := resolver mgr.

Definition SetFileLocationResolver (r : option Z) (mgr : StreamMgr) : StreamMgr :=
  {| resolver := r; devices := devices mgr |}.

Definition CreateDevice (settings : AkDeviceSettings) (hook : Z) (mgr : StreamMgr)
  : Z * StreamMgr :=
  (Z.of_nat (length (devices mgr)),
   {| resolver := resolver mgr; devices := devices mgr ++ [hook] |}).

(** A streaming manager that has no room for another device. *)
Definition CreateDevice_full (settings : AkDeviceSettings) (hook : Z) (mgr : StreamMgr)
  : Z * StreamMgr :=
  (AK_INVALID_DEVICE_ID, mgr).

Definition blocking : AkDeviceSettings := {| uSchedulerTypeFlags := AK_SCHEDULER_BLOCKING |}.
Definition deferred : AkDeviceSettings :=
  {| uSchedulerTypeFlags := AK_SCHEDULER_DEFERRED_LINED_UP |}.

Definition no_mgr : StreamMgr := {| resolver := None; devices := [] |}.

(** The hook object as the static [g_lowLevelIO] starts: zero-initialised,
    then constructed. *)
Definition fresh : TigerPackageIo :=
  {| m_deviceID := AK_INVALID_DEVICE_ID; m_packageFiles := ∅; m_nextPackageFileID := 0 |}.

Definition hook_at (next : Z) : TigerPackageIo :=
  {| m_deviceID := 0; m_packageFiles := ∅; m_nextPackageFileID := next |}.

Definition no_desc : AkFileDesc :=
  {| iFileSize := 0; uSector := 0; uCustomParamSize := 0; pCustomParam := 0;
     hFile := 0; deviceID := 0 |}.

Definition desc_of (h : Z) : AkFileDesc :=
  {| iFileSize := 4; uSector := 0; uCustomParamSize := 0; pCustomParam := 0;
     hFile := h; deviceID := 0 |}.

Definition request (position size : Z) : AkIOTransferInfo :=
  {| uFilePosition := position; uBufferSize := size; uRequestedSize := size |}.

Definition zeros (n : nat) : list byte := replicate n x00.

(** The hook and the descriptor after [fresh] has opened ID [0x10]. *)
Definition opened : TigerPackageIo :=
  {| m_deviceID := AK_INVALID_DEVICE_ID;
     m_packageFiles := {[ 0 := asset ]};
     m_nextPackageFileID := 1 |}.

Definition opened_desc : AkFileDesc :=
  {| iFileSize := 4; uSector := 0; uCustomParamSize := 0; pCustomParam := 0;
     hFile := package_handle 0; deviceID := AK_INVALID_DEVICE_ID |}.

(** The two after the descriptor was closed and ID [0x10] opened again. *)
Definition reopened : TigerPackageIo :=
  {| m_deviceID := AK_INVALID_DEVICE_ID;
     m_packageFiles := {[ 1 := asset ]};
     m_nextPackageFileID := 2 |}.

Definition reopened_desc : AkFileDesc :=
  {| iFileSize := 4; uSector := 0; uCustomParamSize := 0; pCustomParam := 0;
     hFile := package_handle 1; deviceID := AK_INVALID_DEVICE_ID |}.

(** A native file of one byte behind handle 4. *)
Definition one_byte_file : World := {[ 4 := [x2a] ]}.

(** A file system in which the value of a package handle is an open file. *)
Definition aliased_file : World := {[ package_handle 0 := [] ]}.

(** A device that takes one byte per call and reports success. *)
Definition WriteFile_one (w : World) (h : Z) (data : list byte) (n Offset OffsetHigh : Z)
  : bool * Z * World :=
  WriteFile w h data (Z.min n 1) Offset OffsetHigh.

(** Files by name: ["music.wem"] holds three bytes and opens as handle 8;
    no other name exists. A failed open leaves the invalid handle value. *)
Definition music : list byte := [x0a; x0b; x0c].
Definition INVALID_HANDLE_VALUE : Z := UINT64_MAX.

Definition OpenFile (w : World) (name : String.string) (mode : Z)
    (overlapped unbuffered : bool) (hFile : Z) : AKRESULT * Z * World :=
  if String.eqb name "music.wem"%string
  then (AK_Success, 8, <[ 8 := music ]> w)
  else (AK_FileNotFound, INVALID_HANDLE_VALUE, w).

Definition GetFileSize (w : World) (h : Z) : Z * Z :=
  match w !! h with
  | Some content => (Z.of_nat (length content) mod 2 ^ 32, Z.of_nat (length content) / 2 ^ 32)
  | None => (UINT32_MAX, 0)
  end.

Definition DestroyDevice (id : Z) (mgr : StreamMgr) : StreamMgr :=
  {| resolver := resolver mgr; devices := delete (Z.to_nat id) (devices mgr) |}.

Definition IAkStreamMgr_Get (mgr : StreamMgr) : bool := true.
Definition IAkStreamMgr_Destroy (mgr : StreamMgr) : StreamMgr := no_mgr.

Definition OsStrLen (text : list byte) : Z := Z.of_nat (length text).
Definition SafeStrCpy (dest src : list byte) (max : Z) : list byte :=
  take (Z.to_nat (max - 1)) src.
Definition AK_MONITOR_DEVICENAME_MAXLENGTH : Z := 16.

Definition no_device_desc : DeviceDesc.AkDeviceDesc :=
  {| DeviceDesc.deviceID := 0; DeviceDesc.bCanWrite := true; DeviceDesc.bCanRead := false;
     DeviceDesc.szDeviceName := []; DeviceDesc.uStringSize := 0 |}.

Definition some_flags : option AkFileSystemFlags := Some {| uCacheID := 0 |}.

(** A streaming manager in which another resolver, at address 512, is
    registered. *)
Definition other_mgr : StreamMgr := {| resolver := Some 512; devices := [] |}.

(** A hook with two live package files. *)
Definition two_files : TigerPackageIo :=
  {| m_deviceID := 0;
     m_packageFiles := {[ 0 := asset; 1 := music ]};
     m_nextPackageFileID := 2 |}.

(** The hook after [opened] has opened ID [0x10] once more. *)
Definition opened_twice : TigerPackageIo :=
  {| m_deviceID := AK_INVALID_DEVICE_ID;
     m_packageFiles := {[ 0 := asset; 1 := asset ]};
     m_nextPackageFileID := 2 |}.

(** The hook after Init gave it device 0 and it opened ID [0x10]. *)
Definition opened_on_device_0 : TigerPackageIo :=
  {| m_deviceID := 0; m_packageFiles := {[ 0 := asset ]}; m_nextPackageFileID := 1 |}.

(** The descriptor of ["music.wem"] opened by name through [fresh]. *)
Definition music_desc : AkFileDesc :=
  {| iFileSize := 3; uSector := 0; uCustomParamSize := 0; pCustomParam := 0;
     hFile := 8; deviceID := AK_INVALID_DEVICE_ID |}.

Definition music_open : World := {[ 8 := music ]}.


(** [no_desc] after a failed open by name left the invalid handle in it. *)
Definition desc_of_invalid : AkFileDesc :=
  {| iFileSize := 0; uSector := 0; uCustomParamSize := 0; pCustomParam := 0;
     hFile := INVALID_HANDLE_VALUE; deviceID := 0 |}.

End Scenario.

(** ** The hook *)

Section Hook.

(** [extern "C"] delivery source. [ddumbe_read_wwise_file_by_id id size]
    gives the status and the bytes it wrote from the start of the buffer
    it was handed. *)
Variable ddumbe_get_wwise_file_size_by_id : Z -> Z.
Variable ddumbe_read_wwise_file_by_id : Z -> Z -> AKRESULT * list byte.

(** The size query returns a [size_t]. *)
Hypothesis size_t_range :
  forall id, 0 <= ddumbe_get_wwise_file_size_by_id id <= SIZE_MAX.

(** Native file primitives over the state of the file system.
    [ReadFile w hFile nNumberOfBytesToRead Offset OffsetHigh] gives the
    [BOOL] result and the bytes placed in the buffer, whose count is
    [uSizeTransferred]; [WriteFile w hFile data nNumberOfBytesToWrite
    Offset OffsetHigh] gives the [BOOL] result and [uSizeTransferred]. *)
Variable World : Type.
Variable ReadFile : World -> Z -> Z -> Z -> Z -> bool * list byte * World.
Variable WriteFile : World -> Z -> list byte -> Z -> Z -> Z -> bool * Z * World.
Variable CloseFile : World -> Z -> AKRESULT * World.

(** [AK::StreamMgr]: the resolver slot (None for NULL) and device
    creation, with the SDK's two constants. *)
Variable StreamMgr : Type.
Variable GetFileLocationResolver : StreamMgr -> option Z.
Variable SetFileLocationResolver : option Z -> StreamMgr -> StreamMgr.
Variable CreateDevice : AkDeviceSettings -> Z -> StreamMgr -> Z * StreamMgr.
Variable AK_SCHEDULER_BLOCKING : Z.
Variable AK_INVALID_DEVICE_ID : Z.

Definition set_device (this : TigerPackageIo) (id : Z) : TigerPackageIo :=
  {| m_deviceID := id;
     m_packageFiles := m_packageFiles this;
     m_nextPackageFileID := m_nextPackageFileID this |}.

(** [TigerPackageIo::Init]; [this_ptr] is the address of the object. *)
Definition Init (this : TigerPackageIo) (this_ptr : Z) (mgr : StreamMgr)
    (in_deviceSettings : AkDeviceSettings) : AKRESULT * TigerPackageIo * StreamMgr :=
  if negb (uSchedulerTypeFlags in_deviceSettings =? AK_SCHEDULER_BLOCKING)
  then (AK_Fail, this, mgr)
  else
    let mgr1 :=
      match GetFileLocationResolver mgr with
      | None => SetFileLocationResolver (Some this_ptr) mgr
      | Some _ => mgr
      end in
    let '(id, mgr2) := CreateDevice in_deviceSettings this_ptr mgr1 in
    let this' := set_device this id in
    if negb (id =? AK_INVALID_DEVICE_ID)
    then (AK_Success, this', mgr2)
    else (AK_Success, this', mgr2).

(** [m_nextPackageFileID++]: the value before, and the object after. *)
Definition next_file_id (this : TigerPackageIo) : Z * TigerPackageIo :=
  (m_nextPackageFileID this,
   {| m_deviceID := m_deviceID this;
      m_packageFiles := m_packageFiles this;
      m_nextPackageFileID := wrap_uint64 (m_nextPackageFileID this + 1) |}).

(** [m_packageFiles[fileId] = buffer]. *)
Definition store_file (this : TigerPackageIo) (fileId : Z) (buffer : list byte)
  : TigerPackageIo :=
  {| m_deviceID := m_deviceID this;
     m_packageFiles := <[fileId := buffer]> (m_packageFiles this);
     m_nextPackageFileID := m_nextPackageFileID this |}.

(** [m_packageFiles.erase(fileId)]. *)
Definition erase_file (this : TigerPackageIo) (fileId : Z) : TigerPackageIo :=
  {| m_deviceID := m_deviceID this;
     m_packageFiles := delete fileId (m_packageFiles this);
     m_nextPackageFileID := m_nextPackageFileID this |}.

(** [TigerPackageIo::Open(AkFileID, ...)]. The open mode, the flags and
    [io_bSyncOpen] are not used by the body. [out_fileDesc] is assigned on
    the successful path only. Running out of memory ([std::bad_alloc] from
    the buffer or from its copy into the map) is fatal in this design and
    is not an outcome here. *)
Definition Open (this : TigerPackageIo) (in_fileID : Z) (out_fileDesc : AkFileDesc)
  : outcome (AKRESULT * TigerPackageIo * AkFileDesc) :=
  let size := ddumbe_get_wwise_file_size_by_id in_fileID in
  if size =? SIZE_MAX then Returns (AK_FileNotFound, this, out_fileDesc)
  else if vector_max_size <? size then ThrowsLengthError
  else
    let buffer0 := replicate (Z.to_nat size) x00 in
    let '(res, written) := ddumbe_read_wwise_file_by_id in_fileID size in
    let buffer := store_bytes buffer0 written in
    match res with
    | AK_Success =>
        let '(fileId, this1) := next_file_id this in
        let this2 := store_file this1 fileId buffer in
        Returns (AK_Success, this2,
                 {| iFileSize := wrap_int64 size;
                    uSector := 0;
                    uCustomParamSize := 0;
                    pCustomParam := 0;
                    hFile := package_handle fileId;
                    deviceID := m_deviceID this |})
    | _ => Returns (AK_Fail, this, out_fileDesc)
    end.

(** The [OVERLAPPED] offset pair of a file position. *)
Definition overlapped_Offset (position : Z) : Z :=
  wrap_uint32 (Z.land position 4294967295).
Definition overlapped_OffsetHigh (position : Z) : Z :=
  wrap_uint32 (Z.land (Z.shiftr position 32) 4294967295).

(** The condition of the [AKASSERT] that follows a successful [::ReadFile]
    or [::WriteFile]. *)
Definition transfer_assertion (uSizeTransferred uRequestedSize : Z) : bool :=
  uSizeTransferred =? uRequestedSize.

(** [TigerPackageIo::Read]. The heuristics are not used. The result holds
    the status, the object, the output buffer and the file system. *)
Definition Read (this : TigerPackageIo) (w : World) (in_fileDesc : AkFileDesc)
    (out_pBuffer : list byte) (io_transferInfo : AkIOTransferInfo)
  : outcome (AKRESULT * TigerPackageIo * list byte * World) :=
  let uFile := hFile in_fileDesc in
  if handle_is_package uFile then
    let fileId := handle_file_id uFile in
    match m_packageFiles this !! fileId with
    | None => Returns (AK_Fail, this, out_pBuffer, w)
    | Some buffer =>
        if Z.of_nat (length buffer) <?
           wrap_uint64 (uFilePosition io_transferInfo + uRequestedSize io_transferInfo)
        then Returns (AK_Fail, this, out_pBuffer, w)
        else
          match memcpy out_pBuffer buffer (uFilePosition io_transferInfo)
                       (uRequestedSize io_transferInfo) with
          | Some out => Returns (AK_Success, this, out, w)
          | None => UndefinedAccess
          end
    end
  else
    let '(ok, transferred, w') :=
      ReadFile w (hFile in_fileDesc) (uRequestedSize io_transferInfo)
               (overlapped_Offset (uFilePosition io_transferInfo))
               (overlapped_OffsetHigh (uFilePosition io_transferInfo)) in
    if ok
    then Returns (AK_Success, this, store_bytes out_pBuffer transferred, w')
    else Returns (AK_Fail, this, store_bytes out_pBuffer transferred, w').

(** [TigerPackageIo::Write]: no test of the package bit; every handle goes
    to [::WriteFile]. *)
Definition Write (this : TigerPackageIo) (w : World) (in_fileDesc : AkFileDesc)
    (in_pData : list byte) (io_transferInfo : AkIOTransferInfo)
  : AKRESULT * TigerPackageIo * World :=
  let '(ok, uSizeTransferred, w') :=
    WriteFile w (hFile in_fileDesc) in_pData (uRequestedSize io_transferInfo)
              (overlapped_Offset (uFilePosition io_transferInfo))
              (overlapped_OffsetHigh (uFilePosition io_transferInfo)) in
  if ok then (AK_Success, this, w') else (AK_Fail, this, w').

(** [TigerPackageIo::Close]. *)
Definition Close (this : TigerPackageIo) (w : World) (in_fileDesc : AkFileDesc)
  : AKRESULT * TigerPackageIo * World :=
  let uFile := hFile in_fileDesc in
  if handle_is_package uFile then
    let fileId := handle_file_id uFile in
    (AK_Success, erase_file this fileId, w)
  else
    let '(res, w') := CloseFile w (hFile in_fileDesc) in
    (res, this, w').

(** [TigerPackageIo::GetBlockSize]. *)
Definition GetBlockSize (in_fileDesc : AkFileDesc) : Z := 1.

(** A call of the streaming manager into the hook, and a run of calls.
    A run ends early when a call does not return. *)
Inductive call : Type :=
  | call_Open (in_fileID : Z) (out_fileDesc : AkFileDesc)
  | call_Read (d : AkFileDesc) (out_pBuffer : list byte) (ti : AkIOTransferInfo)
  | call_Write (d : AkFileDesc) (in_pData : list byte) (ti : AkIOTransferInfo)
  | call_Close (d : AkFileDesc).

Definition do_call (this : TigerPackageIo) (w : World) (c : call)
  : option (TigerPackageIo * World) :=
  match c with
  | call_Open id d0 =>
      match Open this id d0 with
      | Returns (_, this', _) => Some (this', w)
      | _ => None
      end
  | call_Read d out ti =>
      match Read this w d out ti with
      | Returns (_, this', _, w') => Some (this', w')
      | _ => None
      end
  | call_Write d data ti => Some ((Write this w d data ti).1.2, (Write this w d data ti).2)
  | call_Close d => Some ((Close this w d).1.2, (Close this w d).2)
  end.

Fixpoint run (calls : list call) (this : TigerPackageIo) (w : World)
  : option (TigerPackageIo * World) :=
  match calls with
  | [] => Some (this, w)
  | c :: rest =>
      match do_call this w c with
      | Some (this', w') => run rest this' w'
      | None => None
      end
  end.

(** The state between two opens: the first descriptor closed, or not. *)
Definition between_opens (closing : bool) (this : TigerPackageIo) (w : World)
    (d : AkFileDesc) : TigerPackageIo :=
  if closing then (Close this w d).1.2 else this.

(** *** The rest of the hook *)

Variable DestroyDevice : Z -> StreamMgr -> StreamMgr.

(** [TigerPackageIo::Term]. The members are left as they are. *)
Definition Term (this : TigerPackageIo) (this_ptr : Z) (mgr : StreamMgr)
  : TigerPackageIo * StreamMgr :=
  let mgr1 :=
    match GetFileLocationResolver mgr with
    | Some p => if p =? this_ptr then SetFileLocationResolver None mgr else mgr
    | None => mgr
    end in
  (this, DestroyDevice (m_deviceID this) mgr1).

(** [CAkFileHelpers::OpenFile w name mode overlapped unbuffered hFile]
    gives the status, the handle it leaves in the [hFile] it was handed by
    reference, and the file system; [::GetFileSize w hFile] gives the low
    part it returns and the high part it leaves behind its pointer. *)
Variable FileName : Type.
Variable AkOpenMode : Type.
Variable OpenFile :
  World -> FileName -> AkOpenMode -> bool -> bool -> Z -> AKRESULT * Z * World.
Variable GetFileSize : World -> Z -> Z * Z.

Definition set_hFile (d : AkFileDesc) (h : Z) : AkFileDesc :=
  {| iFileSize := iFileSize d; uSector := uSector d;
     uCustomParamSize := uCustomParamSize d; pCustomParam := pCustomParam d;
     hFile := h; deviceID := deviceID d |}.

(** [ULARGE_INTEGER::QuadPart] of two [DWORD] halves. *)
Definition QuadPart (LowPart HighPart : Z) : Z :=
  wrap_uint32 LowPart + wrap_uint32 HighPart * 2 ^ 32.

(** [TigerPackageIo::Open(const AkOSChar*, ...)]. The first statement reads
    [in_pFlags->uCacheID] for the log line, so a NULL [in_pFlags] is
    dereferenced. [io_bSyncOpen] is not used by the body. *)
Definition Open_by_name (this : TigerPackageIo) (w : World) (in_pszFileName : FileName)
    (in_eOpenMode : AkOpenMode) (in_pFlags : option AkFileSystemFlags)
    (out_fileDesc : AkFileDesc)
  : outcome (AKRESULT * TigerPackageIo * AkFileDesc * World) :=
  match in_pFlags with
  | None => UndefinedAccess
  | Some _ =>
      let '(eResult, h, w') :=
        OpenFile w in_pszFileName in_eOpenMode false false (hFile out_fileDesc) in
      match eResult with
      | AK_Success =>
          let '(LowPart, HighPart) := GetFileSize w' h in
          Returns (AK_Success, this,
                   {| iFileSize := wrap_int64 (QuadPart LowPart HighPart);
                      uSector := 0;
                      uCustomParamSize := 0;
                      pCustomParam := 0;
                      hFile := h;
                      deviceID := m_deviceID this |},
                   w')
      | _ => Returns (eResult, this, set_hFile out_fileDesc h, w')
      end
  end.

(** [AKPLATFORM::OsStrLen], [AKPLATFORM::SafeStrCpy dest src max] and the
    SDK's limit on a device name. *)
Variable OsStrLen : list byte -> Z.
Variable SafeStrCpy : list byte -> list byte -> Z -> list byte.
Variable AK_MONITOR_DEVICENAME_MAXLENGTH : Z.

(** [TigerPackageIo::GetDeviceDesc]. *)
Definition GetDeviceDesc (this : TigerPackageIo) (out_deviceDesc : DeviceDesc.AkDeviceDesc)
  : DeviceDesc.AkDeviceDesc :=
  {| DeviceDesc.deviceID := m_deviceID this;
     DeviceDesc.bCanWrite := false;
     DeviceDesc.bCanRead := true;
     DeviceDesc.szDeviceName :=
       SafeStrCpy (DeviceDesc.szDeviceName out_deviceDesc) szDeviceName_text
                  AK_MONITOR_DEVICENAME_MAXLENGTH;
     DeviceDesc.uStringSize := OsStrLen szDeviceName_text |}.

(** [TigerPackageIo::GetDeviceData]. *)
Definition GetDeviceData (this : TigerPackageIo) : Z := 0.

(** [static TigerPackageIo g_lowLevelIO] of [tiger_streaming_mgr.cpp] as it
    starts: static storage is zeroed, then the constructor sets the device
    identity. *)
Definition g_lowLevelIO : TigerPackageIo :=
  {| m_deviceID := AK_INVALID_DEVICE_ID; m_packageFiles := ∅; m_nextPackageFileID := 0 |}.

(** [AK::IAkStreamMgr::Get()] as a condition, and [Destroy] on it. *)
Variable IAkStreamMgr_Get : StreamMgr -> bool.
Variable IAkStreamMgr_Destroy : StreamMgr -> StreamMgr.

(** [InitTigerStreamMgr] and [TermTigerStreamMgr], over the current value
    [g] of the static object and its address. *)
Definition InitTigerStreamMgr (g : TigerPackageIo) (g_ptr : Z) (mgr : StreamMgr)
    (deviceSettings : AkDeviceSettings) : AKRESULT * TigerPackageIo * StreamMgr :=
  Init g g_ptr mgr deviceSettings.

Definition TermTigerStreamMgr (g : TigerPackageIo) (g_ptr : Z) (mgr : StreamMgr)
  : TigerPackageIo * StreamMgr :=
  let '(g', mgr1) := Term g g_ptr mgr in
  (g', if IAkStreamMgr_Get mgr1 then IAkStreamMgr_Destroy mgr1 else mgr1).

(** *** Notions used by the properties *)

(** Every key in the package store is one the counter has passed. *)
Definition keys_below_counter (this : TigerPackageIo) : Prop :=
  forall k, is_Some (m_packageFiles this !! k) -> 0 <= k < m_nextPackageFileID this.

(** The result of a transfer without the hook object. *)
Definition transfer_result (o : outcome (AKRESULT * TigerPackageIo * list byte * World))
  : outcome (AKRESULT * list byte * World) :=
  match o with
  | Returns (res, _, out, w) => Returns (res, out, w)
  | ThrowsLengthError => ThrowsLengthError
  | UndefinedAccess => UndefinedAccess
  end.

(** The streaming manager keeps its resolver slot as a slot: it gives back
    what was set, and creating or destroying a device leaves it alone. *)
Definition resolver_slot_laws : Prop :=
  (forall r mgr, GetFileLocationResolver (SetFileLocationResolver r mgr) = r) /\
  (forall settings hook mgr,
      GetFileLocationResolver (CreateDevice settings hook mgr).2
      = GetFileLocationResolver mgr) /\
  (forall id mgr, GetFileLocationResolver (DestroyDevice id mgr) = GetFileLocationResolver mgr).

(** ** Handle space: tag and key *)

(** The macro is the negative [int] [-2^31]; widened to 64 bits it covers
    bits 31 to 63, and its complement is the low 31 bits. *)
Lemma package_bit_value : FILE_HANDLE_PACKAGE_BIT = -2147483648.
Proof. reflexivity. Qed.

Lemma package_bit_mask_bits :
  package_bit_mask = Z.shiftl (Z.ones 33) 31 /\ package_key_mask = Z.ones 31.
Proof. split; reflexivity. Qed.

Lemma land_lor_absorb (a m : Z) : Z.land (Z.lor a m) m = m.
Proof.
  apply Z.bits_inj'. intros n _.
  rewrite Z.land_spec, Z.lor_spec.
  destruct (Z.testbit a n), (Z.testbit m n); reflexivity.
Qed.

Lemma handle_is_package_package_handle (fileId : Z) :
  handle_is_package (package_handle fileId) = true.
Proof.
  unfold handle_is_package, package_handle.
  rewrite land_lor_absorb. reflexivity.
Qed.

Lemma handle_file_id_low_bits (uFile : Z) :
  handle_file_id uFile = uFile mod 2 ^ 31.
Proof.
  unfold handle_file_id.
  replace package_key_mask with (Z.ones 31) by reflexivity.
  apply Z.land_ones. lia.
Qed.

Lemma handle_file_id_package_handle (fileId : Z) :
  handle_file_id (package_handle fileId) = fileId mod 2 ^ 31.
Proof.
  unfold handle_file_id, package_handle.
  rewrite Z.land_lor_distr_l.
  replace (Z.land package_bit_mask package_key_mask) with 0 by reflexivity.
  rewrite Z.lor_0_r.
  apply (handle_file_id_low_bits fileId).
Qed.

Lemma package_handle_flag_bit (fileId : Z) :
  Z.testbit (package_handle fileId) 31 = true.
Proof.
  unfold package_handle. rewrite Z.lor_spec.
  replace (Z.testbit package_bit_mask 31) with true by reflexivity.
  apply orb_true_r.
Qed.

(** C3. For every key [k] below [2^31], the handle built from [k] has the
    flag bit 31 set and [k] in its low 31 bits; the test of the flag
    succeeds on it, masking the flag off gives [k] back, and so decoding
    the encoded key gives [(true, k)]. *)
Theorem decode_package_handle (k : Z) :
  key_in_range k ->
  Z.testbit (package_handle k) 31 = true /\
  package_handle k mod 2 ^ 31 = k /\
  handle_is_package (package_handle k) = true /\
  handle_file_id (package_handle k) = k /\
  decode_handle (package_handle k) = (true, k).
Proof.
  intros Hk. unfold key_in_range in Hk.
  assert (Hid : handle_file_id (package_handle k) = k).
  { rewrite handle_file_id_package_handle. apply Z.mod_small. exact Hk. }
  split; [apply package_handle_flag_bit|].
  split; [rewrite <- handle_file_id_low_bits; exact Hid|].
  split; [apply handle_is_package_package_handle|].
  split; [exact Hid|].
  unfold decode_handle.
  rewrite handle_is_package_package_handle, Hid. reflexivity.
Qed.

(** ** Buffers *)

Lemma length_store_bytes (buf written : list byte) :
  length (store_bytes buf written) = length buf.
Proof.
  unfold store_bytes. rewrite length_app, length_take, length_drop. lia.
Qed.

Lemma store_bytes_full (n : nat) (x : byte) (written : list byte) :
  length written = n -> store_bytes (replicate n x) written = written.
Proof.
  intros <-. unfold store_bytes. rewrite length_replicate.
  rewrite take_ge by lia.
  rewrite drop_ge by (rewrite length_replicate; lia).
  apply app_nil_r.
Qed.

Lemma memcpy_from_start (dst src : list byte) :
  (length src <= length dst)%nat ->
  memcpy dst src 0 (Z.of_nat (length src)) = Some (src ++ drop (length src) dst).
Proof.
  intros Hle. unfold memcpy.
  assert (Hc : (0 <=? 0) && (0 <=? Z.of_nat (length src))
               && (0 + Z.of_nat (length src) <=? Z.of_nat (length src))
               && (Z.of_nat (length src) <=? Z.of_nat (length dst)) = true).
  { repeat (apply andb_true_intro; split); apply Z.leb_le; lia. }
  rewrite Hc, Nat2Z.id. change (Z.to_nat 0) with 0%nat.
  rewrite drop_0, take_ge by lia. reflexivity.
Qed.

Lemma wrap_int64_small (z : Z) : 0 <= z <= vector_max_size -> wrap_int64 z = z.
Proof.
  unfold wrap_int64, vector_max_size. intros Hz.
  rewrite Z.mod_small by lia. lia.
Qed.

Lemma wrap_uint64_small (z : Z) : 0 <= z <= UINT64_MAX -> wrap_uint64 z = z.
Proof.
  unfold wrap_uint64, UINT64_MAX. intros Hz. apply Z.mod_small. lia.
Qed.

(** ** Open by file ID *)

Lemma Open_success_inv (this : TigerPackageIo) (in_fileID : Z) (d0 : AkFileDesc)
    (this' : TigerPackageIo) (d : AkFileDesc) :
  Open this in_fileID d0 = Returns (AK_Success, this', d) ->
  let size := ddumbe_get_wwise_file_size_by_id in_fileID in
  size <= vector_max_size /\
  exists written,
    ddumbe_read_wwise_file_by_id in_fileID size = (AK_Success, written) /\
    this' = store_file (next_file_id this).2 (next_file_id this).1
              (store_bytes (replicate (Z.to_nat size) x00) written) /\
    d = {| iFileSize := wrap_int64 size; uSector := 0; uCustomParamSize := 0;
           pCustomParam := 0; hFile := package_handle (next_file_id this).1;
           deviceID := m_deviceID this |}.
Proof.
  unfold Open. cbv zeta.
  destruct (ddumbe_get_wwise_file_size_by_id in_fileID =? SIZE_MAX); [discriminate|].
  destruct (vector_max_size <? ddumbe_get_wwise_file_size_by_id in_fileID) eqn:Hmax;
    [discriminate|].
  apply Z.ltb_ge in Hmax.
  destruct (ddumbe_read_wwise_file_by_id in_fileID _) as [res written].
  destruct res; try discriminate.
  simpl. intros H. inversion H; subst. split; [exact Hmax|].
  exists written. auto.
Qed.

Lemma Open_success (this : TigerPackageIo) (in_fileID : Z) (d0 : AkFileDesc)
    (written : list byte) :
  let size := ddumbe_get_wwise_file_size_by_id in_fileID in
  size <= vector_max_size ->
  ddumbe_read_wwise_file_by_id in_fileID size = (AK_Success, written) ->
  Open this in_fileID d0 =
  Returns (AK_Success,
           store_file (next_file_id this).2 (next_file_id this).1
             (store_bytes (replicate (Z.to_nat size) x00) written),
           {| iFileSize := wrap_int64 size; uSector := 0; uCustomParamSize := 0;
              pCustomParam := 0; hFile := package_handle (next_file_id this).1;
              deviceID := m_deviceID this |}).
Proof.
  intros size Hmax Hread. unfold Open. fold size.
  assert (Hne : (size =? SIZE_MAX) = false).
  { apply Z.eqb_neq. unfold SIZE_MAX, vector_max_size in *. lia. }
  assert (Hlt : (vector_max_size <? size) = false) by (apply Z.ltb_ge; exact Hmax).
  rewrite Hne, Hlt, Hread. reflexivity.
Qed.

(** C8, as the code has it. Every successful open by file ID leaves in the
    descriptor the package-flagged handle of the key it took, the size the
    delivery source reported, the sector field 0 and the device identity
    of the hook; 1 is the block size [GetBlockSize] reports for it. *)
Theorem Open_descriptor (this : TigerPackageIo) (in_fileID : Z) (d0 : AkFileDesc)
    (this' : TigerPackageIo) (d : AkFileDesc) :
  Open this in_fileID d0 = Returns (AK_Success, this', d) ->
  hFile d = package_handle (m_nextPackageFileID this) /\
  handle_is_package (hFile d) = true /\
  iFileSize d = ddumbe_get_wwise_file_size_by_id in_fileID /\
  uSector d = 0 /\
  deviceID d = m_deviceID this /\
  GetBlockSize d = 1.
Proof using size_t_range.
  intros Hopen. apply Open_success_inv in Hopen.
  destruct Hopen as (Hmax & written & _ & _ & ->). simpl.
  split; [reflexivity|].
  split; [apply handle_is_package_package_handle|].
  split; [|auto].
  apply wrap_int64_small. split; [apply size_t_range | exact Hmax].
Qed.

(** C2, as the code has it. While the key counter is below [2^31]: when the
    delivery source reports size [size] for the ID and the fetch of [size]
    bytes succeeds, the open succeeds, the descriptor reports [size], and the
    read of [size] bytes at position 0 through that descriptor puts exactly
    the fetched bytes at the start of the output buffer. *)
Theorem Read_after_Open (this : TigerPackageIo) (in_fileID : Z) (d0 : AkFileDesc)
    (size : Z) (data : list byte) (w : World) (out : list byte) (ti : AkIOTransferInfo) :
  key_in_range (m_nextPackageFileID this) ->
  ddumbe_get_wwise_file_size_by_id in_fileID = size ->
  ddumbe_read_wwise_file_by_id in_fileID size = (AK_Success, data) ->
  Z.of_nat (length data) = size ->
  transfer_in_range ti ->
  uFilePosition ti = 0 ->
  uRequestedSize ti = size ->
  size <= Z.of_nat (length out) ->
  exists this' d,
    Open this in_fileID d0 = Returns (AK_Success, this', d) /\
    iFileSize d = size /\
    Read this' w d out ti =
    Returns (AK_Success, this', data ++ drop (Z.to_nat size) out, w).
Proof.
  intros Hkey Hsize Hread Hlen (_ & _ & Hreq) Hpos HS Hout.
  rewrite HS in Hreq. unfold UINT32_MAX in Hreq.
  assert (Hmax : size <= vector_max_size) by (unfold vector_max_size; lia).
  pose proof (Open_success this in_fileID d0 data) as Hopen.
  cbv zeta in Hopen. rewrite Hsize in Hopen.
  specialize (Hopen Hmax Hread).
  rewrite store_bytes_full in Hopen by lia.
  eexists _, _. split; [exact Hopen|].
  split; [simpl; apply wrap_int64_small; lia|].
  unfold Read. cbn [hFile next_file_id fst snd].
  rewrite handle_is_package_package_handle, handle_file_id_package_handle.
  rewrite (Z.mod_small _ _ Hkey).
  cbn [store_file m_packageFiles]. rewrite lookup_insert_eq.
  rewrite Hpos, HS, Z.add_0_l.
  rewrite wrap_uint64_small by (unfold UINT64_MAX; lia).
  rewrite Hlen, Z.ltb_irrefl.
  rewrite <- Hlen at 1. rewrite memcpy_from_start by lia.
  rewrite <- Hlen, Nat2Z.id. reflexivity.
Qed.

(** C4, as the code has it. While the 64-bit counter has not reached its
    last value: of two successful opens by file ID in sequence, with or
    without the first descriptor closed in between, each stores its
    buffer under the key it took from the counter, and the second key is
    strictly greater than the first; while the counter is below [2^31 - 1]
    these are also the keys the two handles carry; and no Close changes
    the counter. *)
Theorem Open_keys_increase (this : TigerPackageIo) (id1 id2 : Z) (da db : AkFileDesc)
    (w : World) (closing : bool) (this1 this2 : TigerPackageIo) (d1 d2 : AkFileDesc) :
  0 <= m_nextPackageFileID this < UINT64_MAX ->
  Open this id1 da = Returns (AK_Success, this1, d1) ->
  Open (between_opens closing this1 w d1) id2 db = Returns (AK_Success, this2, d2) ->
  let key1 := (next_file_id this).1 in
  let key2 := (next_file_id (between_opens closing this1 w d1)).1 in
  is_Some (m_packageFiles this1 !! key1) /\
  is_Some (m_packageFiles this2 !! key2) /\
  key1 < key2 /\
  (m_nextPackageFileID this < 2 ^ 31 - 1 ->
   handle_file_id (hFile d1) = key1 /\ handle_file_id (hFile d2) = key2) /\
  forall (that : TigerPackageIo) (w' : World) (d : AkFileDesc),
    m_nextPackageFileID (Close that w' d).1.2 = m_nextPackageFileID that.
Proof.
  intros Hctr Hopen1 Hopen2 key1 key2.
  assert (Hclose : forall that w' d,
             m_nextPackageFileID (Close that w' d).1.2 = m_nextPackageFileID that).
  { intros that w' d. unfold Close.
    destruct (handle_is_package (hFile d)); [reflexivity|].
    destruct (CloseFile w' (hFile d)); reflexivity. }
  assert (Hbetween : forall that d,
             m_nextPackageFileID (between_opens closing that w d)
             = m_nextPackageFileID that).
  { intros that d. unfold between_opens. destruct closing; [apply Hclose|reflexivity]. }
  apply Open_success_inv in Hopen1. destruct Hopen1 as (_ & b1 & _ & -> & ->).
  apply Open_success_inv in Hopen2. destruct Hopen2 as (_ & b2 & _ & -> & ->).
  assert (Hkey2 : key2 = m_nextPackageFileID this + 1).
  { subst key2. cbn [next_file_id fst]. rewrite Hbetween.
    cbn [store_file next_file_id snd m_nextPackageFileID].
    apply wrap_uint64_small. lia. }
  split; [eexists; apply lookup_insert_eq|].
  split; [eexists; apply lookup_insert_eq|].
  split; [rewrite Hkey2; subst key1; cbn [next_file_id fst]; lia|].
  split; [|exact Hclose].
  intros Hlow. cbn [hFile]. rewrite !handle_file_id_package_handle.
  fold key2. fold key1. rewrite Hkey2. subst key1. cbn [next_file_id fst].
  split; apply Z.mod_small; lia.
Qed.

(** ** Read, Write and Close *)

Lemma Read_package (this : TigerPackageIo) (w : World) (d : AkFileDesc)
    (out : list byte) (ti : AkIOTransferInfo) :
  handle_is_package (hFile d) = true ->
  Read this w d out ti =
  match m_packageFiles this !! handle_file_id (hFile d) with
  | None => Returns (AK_Fail, this, out, w)
  | Some buffer =>
      if Z.of_nat (length buffer) <? wrap_uint64 (uFilePosition ti + uRequestedSize ti)
      then Returns (AK_Fail, this, out, w)
      else match memcpy out buffer (uFilePosition ti) (uRequestedSize ti) with
           | Some out' => Returns (AK_Success, this, out', w)
           | None => UndefinedAccess
           end
  end.
Proof. intros Hpkg. unfold Read. rewrite Hpkg. reflexivity. Qed.

(** X8. The bounds test of [Read] does its work as long as the sum of
    position and size does not wrap: a request that ends beyond the stored
    buffer fails with [AK_Fail] and leaves the output buffer, the hook and
    the file system as they were. *)
Lemma Read_out_of_range_without_wrap (this : TigerPackageIo) (w : World)
    (d : AkFileDesc) (out buffer : list byte) (ti : AkIOTransferInfo) :
  handle_is_package (hFile d) = true ->
  m_packageFiles this !! handle_file_id (hFile d) = Some buffer ->
  transfer_in_range ti ->
  uFilePosition ti + uRequestedSize ti <= UINT64_MAX ->
  Z.of_nat (length buffer) < uFilePosition ti + uRequestedSize ti ->
  Read this w d out ti = Returns (AK_Fail, this, out, w).
Proof.
  intros Hpkg Hfind (Hpos & _ & Hreq) Hsum Hlong.
  rewrite Read_package, Hfind by exact Hpkg.
  rewrite wrap_uint64_small by lia.
  apply Z.ltb_lt in Hlong. rewrite Hlong. reflexivity.
Qed.

(** On a native handle the status of [Read] follows the [BOOL] of
    [::ReadFile] alone. *)
Lemma Read_native (this : TigerPackageIo) (w : World) (d : AkFileDesc)
    (out : list byte) (ti : AkIOTransferInfo) :
  handle_is_package (hFile d) = false ->
  let os := ReadFile w (hFile d) (uRequestedSize ti)
              (overlapped_Offset (uFilePosition ti))
              (overlapped_OffsetHigh (uFilePosition ti)) in
  Read this w d out ti =
  Returns (if os.1.1 then AK_Success else AK_Fail, this, store_bytes out os.1.2, os.2).
Proof.
  intros Hnat os. unfold Read. rewrite Hnat. fold os.
  destruct os as [[ok transferred] w']. destruct ok; reflexivity.
Qed.



(** C9, as the code has it. Write makes no test of the package bit: a
    package-flagged handle is passed to the native positioned write like
    any other, the status is success exactly when that write reports
    success and [AK_Fail] otherwise, and the hook object, its package
    store included, is left as it was. *)
Theorem Write_package_handle (this : TigerPackageIo) (w : World) (d : AkFileDesc)
    (data : list byte) (ti : AkIOTransferInfo) :
  handle_is_package (hFile d) = true ->
  let os := WriteFile w (hFile d) data (uRequestedSize ti)
              (overlapped_Offset (uFilePosition ti))
              (overlapped_OffsetHigh (uFilePosition ti)) in
  Write this w d data ti = (if os.1.1 then AK_Success else AK_Fail, this, os.2) /\
  m_packageFiles (Write this w d data ti).1.2 = m_packageFiles this.
Proof.
  intros _ os. unfold Write. fold os.
  destruct os as [[ok n] w']. destruct ok; split; reflexivity.
Qed.

(** ** Init *)

(** C6. When the scheduler flags of the device settings are not the
    blocking mode, Init fails and leaves the hook object and the streaming
    manager as they were: no resolver is set and no device is created.
    The failure is [AK_Fail], the one code [Init] has for it. *)
Theorem Init_not_blocking (this : TigerPackageIo) (this_ptr : Z) (mgr : StreamMgr)
    (settings : AkDeviceSettings) :
  uSchedulerTypeFlags settings <> AK_SCHEDULER_BLOCKING ->
  Init this this_ptr mgr settings = (AK_Fail, this, mgr).
Proof.
  intros Hflags. unfold Init.
  apply Z.eqb_neq in Hflags. rewrite Hflags. reflexivity.
Qed.

(** C10. When the scheduler flags are the blocking mode, Init returns
    success whatever device creation reports: the identity it reports is
    stored in the hook, and when it is the invalid identity Init returns
    success all the same. *)
Theorem Init_blocking (this : TigerPackageIo) (this_ptr : Z) (mgr : StreamMgr)
    (settings : AkDeviceSettings) :
  uSchedulerTypeFlags settings = AK_SCHEDULER_BLOCKING ->
  let mgr1 := match GetFileLocationResolver mgr with
              | None => SetFileLocationResolver (Some this_ptr) mgr
              | Some _ => mgr
              end in
  let created := CreateDevice settings this_ptr mgr1 in
  Init this this_ptr mgr settings = (AK_Success, set_device this created.1, created.2) /\
  (created.1 = AK_INVALID_DEVICE_ID ->
   (Init this this_ptr mgr settings).1.1 = AK_Success /\
   m_deviceID (Init this this_ptr mgr settings).1.2 = AK_INVALID_DEVICE_ID).
Proof.
  intros Hflags mgr1 created.
  assert (Hinit : Init this this_ptr mgr settings
                  = (AK_Success, set_device this created.1, created.2)).
  { unfold Init. apply Z.eqb_eq in Hflags. rewrite Hflags. cbn [negb].
    fold mgr1. fold created. destruct created as [id mgr2].
    destruct (negb (id =? AK_INVALID_DEVICE_ID)); reflexivity. }
  split; [exact Hinit|].
  intros Hinvalid. rewrite Hinit. cbn [fst snd set_device m_deviceID].
  split; [reflexivity | exact Hinvalid].
Qed.

(** ** Runs of calls: a stale key stays absent *)

Lemma Open_state (this : TigerPackageIo) (in_fileID : Z) (d0 : AkFileDesc)
    (r : AKRESULT) (this' : TigerPackageIo) (d : AkFileDesc) :
  Open this in_fileID d0 = Returns (r, this', d) ->
  this' = this \/
  exists buffer, this' = store_file (next_file_id this).2 (next_file_id this).1 buffer.
Proof.
  unfold Open. cbv zeta.
  destruct (ddumbe_get_wwise_file_size_by_id in_fileID =? SIZE_MAX);
    [inversion 1; auto|].
  destruct (vector_max_size <? ddumbe_get_wwise_file_size_by_id in_fileID);
    [discriminate|].
  destruct (ddumbe_read_wwise_file_by_id in_fileID _) as [res written].
  destruct res; inversion 1; eauto.
Qed.

Lemma Read_state (this : TigerPackageIo) (w : World) (d : AkFileDesc) (out : list byte)
    (ti : AkIOTransferInfo) (r : AKRESULT) (this' : TigerPackageIo) (out' : list byte)
    (w' : World) :
  Read this w d out ti = Returns (r, this', out', w') -> this' = this.
Proof.
  unfold Read. destruct (handle_is_package (hFile d)).
  - destruct (m_packageFiles this !! handle_file_id (hFile d)) as [buffer|];
      [|inversion 1; auto].
    destruct (Z.of_nat (length buffer) <? _); [inversion 1; auto|].
    destruct (memcpy out buffer _ _); [inversion 1; auto | discriminate].
  - destruct (ReadFile w _ _ _ _) as [[ok transferred] w1].
    destruct ok; inversion 1; auto.
Qed.

Lemma Write_state (this : TigerPackageIo) (w : World) (d : AkFileDesc)
    (data : list byte) (ti : AkIOTransferInfo) :
  (Write this w d data ti).1.2 = this.
Proof.
  unfold Write. destruct (WriteFile w _ _ _ _ _) as [[ok n] w'].
  destruct ok; reflexivity.
Qed.

Lemma Close_state (this : TigerPackageIo) (w : World) (d : AkFileDesc) :
  (Close this w d).1.2 = this \/
  (Close this w d).1.2 = erase_file this (handle_file_id (hFile d)).
Proof.
  unfold Close. destruct (handle_is_package (hFile d)); [right; reflexivity|].
  destruct (CloseFile w (hFile d)). left. reflexivity.
Qed.

(** What one call can do to the hook object: nothing, erase a key, or store
    a buffer under the counter and advance it. *)
Lemma do_call_state (this : TigerPackageIo) (w : World) (c : call)
    (this' : TigerPackageIo) (w' : World) :
  do_call this w c = Some (this', w') ->
  this' = this \/
  (exists k, this' = erase_file this k) \/
  (exists buffer, this' = store_file (next_file_id this).2 (next_file_id this).1 buffer).
Proof.
  destruct c as [id d0 | d out ti | d data ti | d]; simpl.
  - destruct (Open this id d0) as [[[r this1] d1]| |] eqn:Hopen; try discriminate.
    inversion 1; subst. apply Open_state in Hopen.
    destruct Hopen as [Hsame | Hstored]; [left; exact Hsame | right; right; exact Hstored].
  - destruct (Read this w d out ti) as [[[[r this1] out'] w1]| |] eqn:Hread;
      try discriminate.
    inversion 1; subst. apply Read_state in Hread. auto.
  - intros Hc. inversion Hc. left. apply Write_state.
  - intros Hc. inversion Hc.
    destruct (Close_state this w d) as [Hs | Hs]; rewrite Hs; eauto.
Qed.

Lemma run_keeps_key_absent (calls : list call) :
  forall (this : TigerPackageIo) (w : World) (this' : TigerPackageIo) (w' : World) (k : Z),
    run calls this w = Some (this', w') ->
    0 <= m_nextPackageFileID this ->
    m_nextPackageFileID this + Z.of_nat (length calls) <= UINT64_MAX ->
    k < m_nextPackageFileID this ->
    m_packageFiles this !! k = None ->
    m_packageFiles this' !! k = None.
Proof.
  induction calls as [|c rest IH]; intros this w this' w' k Hrun Hlo Hhi Hk Habs.
  - simpl in Hrun. inversion Hrun; subst. exact Habs.
  - simpl in Hrun. destruct (do_call this w c) as [[this1 w1]|] eqn:Hcall;
      [|discriminate].
    rewrite length_cons, Nat2Z.inj_succ in Hhi.
    apply do_call_state in Hcall.
    destruct Hcall as [-> | [[k' ->] | [buffer ->]]].
    + apply (IH this w1 this' w' k Hrun); [lia | lia | exact Hk | exact Habs].
    + apply (IH _ w1 this' w' k Hrun); cbn [erase_file m_nextPackageFileID m_packageFiles];
        [lia | lia | exact Hk |].
      destruct (decide (k' = k)) as [->|Hne];
        [apply lookup_delete_eq | rewrite lookup_delete_ne by exact Hne; exact Habs].
    + assert (Hw : wrap_uint64 (m_nextPackageFileID this + 1) = m_nextPackageFileID this + 1)
        by (apply wrap_uint64_small; lia).
      apply (IH _ w1 this' w' k Hrun);
        cbn [store_file next_file_id fst snd m_nextPackageFileID m_packageFiles];
        rewrite ?Hw; [lia | lia | lia |].
      rewrite lookup_insert_ne by lia. exact Habs.
Qed.

(** X19. A package handle closed while its key is below the counter stays
    stale: after any run of Open, Read, Write and Close calls that does not
    wrap the counter, every Read through it fails with [AK_Fail] and leaves
    the output buffer as it was. *)
Lemma Read_stale_after_run (this : TigerPackageIo) (w : World) (d : AkFileDesc)
    (calls : list call) (this' : TigerPackageIo) (w' : World) :
  handle_is_package (hFile d) = true ->
  handle_file_id (hFile d) < m_nextPackageFileID this ->
  0 <= m_nextPackageFileID this ->
  m_nextPackageFileID this + Z.of_nat (length calls) <= UINT64_MAX ->
  run calls (Close this w d).1.2 (Close this w d).2 = Some (this', w') ->
  forall (w'' : World) (out : list byte) (ti : AkIOTransferInfo),
    Read this' w'' d out ti = Returns (AK_Fail, this', out, w'').
Proof.
  intros Hpkg Hkey Hlo Hhi Hrun w'' out ti.
  assert (Hclose : Close this w d
                   = (AK_Success, erase_file this (handle_file_id (hFile d)), w)).
  { unfold Close. rewrite Hpkg. reflexivity. }
  rewrite Hclose in Hrun. cbn [fst snd] in Hrun.
  rewrite Read_package by exact Hpkg.
  rewrite (run_keeps_key_absent calls _ _ _ _ _ Hrun); [reflexivity | | | |];
    cbn [erase_file m_nextPackageFileID m_packageFiles];
    [exact Hlo | exact Hhi | exact Hkey | apply lookup_delete_eq].
Qed.

(** ** More on the handle space *)

Lemma masks_disjoint_bits (h : Z) :
  Z.land (Z.land h package_bit_mask) (Z.land h package_key_mask) = 0.
Proof.
  apply Z.bits_inj'. intros n _. rewrite !Z.land_spec, Z.bits_0.
  assert (Hmk : Z.testbit package_bit_mask n && Z.testbit package_key_mask n = false).
  { rewrite <- Z.land_spec.
    replace (Z.land package_bit_mask package_key_mask) with 0 by reflexivity.
    apply Z.bits_0. }
  destruct (Z.testbit h n), (Z.testbit package_bit_mask n),
    (Z.testbit package_key_mask n); simpl in *; congruence.
Qed.

(** A 64-bit value is its part under the flag mask plus its low 31 bits. *)
Lemma handle_split (h : Z) :
  0 <= h <= UINT64_MAX -> h = Z.land h package_bit_mask + h mod 2 ^ 31.
Proof.
  intros Hh. unfold UINT64_MAX in Hh.
  pose proof (Z.add_lor_land (Z.land h package_bit_mask) (Z.land h package_key_mask)) as Hadd.
  rewrite masks_disjoint_bits, Z.add_0_r, <- Z.land_lor_distr_r in Hadd.
  replace (Z.lor package_bit_mask package_key_mask) with (Z.ones 64) in Hadd by reflexivity.
  rewrite Z.land_ones in Hadd by lia.
  rewrite (Z.mod_small h) in Hadd by lia.
  fold (handle_file_id h) in Hadd. rewrite handle_file_id_low_bits in Hadd. lia.
Qed.

Lemma package_handle_value (k : Z) :
  0 <= k <= UINT64_MAX -> package_handle k = package_bit_mask + k mod 2 ^ 31.
Proof.
  intros Hk. unfold package_handle.
  pose proof (Z.add_lor_land k package_bit_mask) as Hadd.
  pose proof (handle_split k Hk) as Hsplit. lia.
Qed.

(** X1. For a 64-bit handle value, the package test of [Read] and [Close]
    succeeds exactly when the value is at least [2^31]: the widened macro
    covers bits 31 to 63, not bit 31 alone. *)
Theorem handle_is_package_iff (h : Z) :
  0 <= h <= UINT64_MAX ->
  handle_is_package h = true <-> 2 ^ 31 <= h.
Proof.
  intros Hh. pose proof (handle_split h Hh) as Hsplit.
  assert (Hmod : 0 <= h mod 2 ^ 31 < 2 ^ 31) by (apply Z.mod_pos_bound; lia).
  assert (Hland : 0 <= Z.land h package_bit_mask) by (apply Z.land_nonneg; lia).
  unfold handle_is_package. rewrite negb_true_iff, Z.eqb_neq. split.
  - intros Hne. destruct (Z_lt_le_dec h (2 ^ 31)) as [Hlt|Hge]; [|exact Hge].
    rewrite (Z.mod_small h) in Hsplit by lia. lia.
  - intros Hge Hzero. lia.
Qed.

(** X2. Two 64-bit keys get the same package handle exactly when their low
    31 bits agree; in particular the handle is injective on the keys below
    [2^31], and key [k + 2^31] shares the handle of key [k]. *)
Theorem package_handle_eq_iff (k1 k2 : Z) :
  0 <= k1 <= UINT64_MAX ->
  0 <= k2 <= UINT64_MAX ->
  package_handle k1 = package_handle k2 <-> k1 mod 2 ^ 31 = k2 mod 2 ^ 31.
Proof.
  intros H1 H2. rewrite !package_handle_value by assumption. lia.
Qed.

(** X3. The package handle of any 64-bit key is itself a 64-bit value, at
    least [2^64 - 2^31]: it is never a handle below [2^31], which is what
    [Read] and [Close] take for native. *)
Theorem package_handle_range (k : Z) :
  0 <= k <= UINT64_MAX ->
  2 ^ 64 - 2 ^ 31 <= package_handle k <= UINT64_MAX /\
  handle_is_package (package_handle k) = true.
Proof.
  intros Hk. split; [|apply handle_is_package_package_handle].
  rewrite package_handle_value by exact Hk.
  assert (Hmod : 0 <= k mod 2 ^ 31 < 2 ^ 31) by (apply Z.mod_pos_bound; lia).
  replace package_bit_mask with (2 ^ 64 - 2 ^ 31) by reflexivity.
  unfold UINT64_MAX. lia.
Qed.

(** X4. The [OVERLAPPED] offset pair of [Read] and [Write] holds the file
    position exactly: both halves are 32-bit values and
    [Offset + OffsetHigh * 2^32] is the position. *)
Theorem overlapped_offsets (position : Z) :
  0 <= position <= UINT64_MAX ->
  0 <= overlapped_Offset position <= UINT32_MAX /\
  0 <= overlapped_OffsetHigh position <= UINT32_MAX /\
  overlapped_Offset position + overlapped_OffsetHigh position * 2 ^ 32 = position.
Proof.
  intros Hp. unfold UINT64_MAX in Hp.
  unfold overlapped_Offset, overlapped_OffsetHigh, wrap_uint32, UINT32_MAX.
  change 4294967295 with (Z.ones 32).
  rewrite !Z.land_ones, Z.shiftr_div_pow2 by lia.
  rewrite !Z.mod_mod by lia.
  assert (Hq : 0 <= position / 2 ^ 32 < 2 ^ 32).
  { split; [apply Z.div_pos; lia|]. apply Z.div_lt_upper_bound; lia. }
  rewrite (Z.mod_small (position / 2 ^ 32)) by lia.
  pose proof (Z.mod_pos_bound position (2 ^ 32)) as Hm.
  pose proof (Z.div_mod position (2 ^ 32)) as Hdm. lia.
Qed.

(** ** More on Open by file ID and on Read *)

Lemma memcpy_in_bounds (dst src : list byte) (offset n : Z) :
  0 <= offset -> 0 <= n ->
  offset + n <= Z.of_nat (length src) ->
  n <= Z.of_nat (length dst) ->
  memcpy dst src offset n
  = Some (take (Z.to_nat n) (drop (Z.to_nat offset) src) ++ drop (Z.to_nat n) dst).
Proof.
  intros Ho Hn Hsrc Hdst. unfold memcpy.
  assert (Hc : (0 <=? offset) && (0 <=? n) && (offset + n <=? Z.of_nat (length src))
               && (n <=? Z.of_nat (length dst)) = true).
  { repeat (apply andb_true_intro; split); apply Z.leb_le; assumption. }
  rewrite Hc. reflexivity.
Qed.

(** X5. The statuses an open by file ID returns. When the size query
    answers [SIZE_MAX] the open returns [AK_FileNotFound] at once. And
    whenever the open returns: the status is [AK_FileNotFound] exactly for
    the [SIZE_MAX] answer; [AK_Fail] comes only from a fetch that did not
    report success, [AK_Success] only from one that did, for a size within
    [max_size]; no other status is returned; and with a status other than
    [AK_Success] the hook (store and counter) and the descriptor are as
    they were. *)
Theorem Open_returned_status (this : TigerPackageIo) (in_fileID : Z) (d0 : AkFileDesc) :
  let size := ddumbe_get_wwise_file_size_by_id in_fileID in
  (size = SIZE_MAX -> Open this in_fileID d0 = Returns (AK_FileNotFound, this, d0)) /\
  forall (res : AKRESULT) (this' : TigerPackageIo) (d : AkFileDesc),
    Open this in_fileID d0 = Returns (res, this', d) ->
    (res = AK_FileNotFound <-> size = SIZE_MAX) /\
    (res = AK_Fail -> (ddumbe_read_wwise_file_by_id in_fileID size).1 <> AK_Success) /\
    (res = AK_Success ->
     size <= vector_max_size /\
     (ddumbe_read_wwise_file_by_id in_fileID size).1 = AK_Success) /\
    (res <> AK_Success -> this' = this /\ d = d0) /\
    (res = AK_Success \/ res = AK_Fail \/ res = AK_FileNotFound).
Proof.
  intros size. unfold Open. fold size.
  destruct (size =? SIZE_MAX) eqn:Hs.
  { apply Z.eqb_eq in Hs. split; [reflexivity|].
    intros res this' d Hret. inversion Hret; subst res this' d.
    repeat split; auto; discriminate. }
  apply Z.eqb_neq in Hs. split; [intros Hmax; contradiction|].
  intros res this' d. destruct (vector_max_size <? size) eqn:Hm; [discriminate|].
  apply Z.ltb_ge in Hm.
  destruct (ddumbe_read_wwise_file_by_id in_fileID size) as [fetched written].
  destruct fetched; intros Hret; inversion Hret; subst res; cbn [fst];
    repeat split; auto; try discriminate; try contradiction; try congruence.
Qed.

(** X6. A successful open by file ID stores, under the value the counter
    had, a buffer of exactly as many bytes as the descriptor reports,
    whatever the delivery source wrote; it advances the counter by one
    modulo [2^64] and leaves every other key, and the device identity,
    as they were. *)
Theorem Open_stores_sized_buffer (this : TigerPackageIo) (in_fileID : Z)
    (d0 : AkFileDesc) (this' : TigerPackageIo) (d : AkFileDesc) :
  Open this in_fileID d0 = Returns (AK_Success, this', d) ->
  (exists buffer,
      m_packageFiles this' !! m_nextPackageFileID this = Some buffer /\
      Z.of_nat (length buffer) = iFileSize d) /\
  (forall k, k <> m_nextPackageFileID this ->
             m_packageFiles this' !! k = m_packageFiles this !! k) /\
  m_nextPackageFileID this' = wrap_uint64 (m_nextPackageFileID this + 1) /\
  m_deviceID this' = m_deviceID this.
Proof using size_t_range.
  intros Hopen. apply Open_success_inv in Hopen.
  destruct Hopen as (Hmax & written & _ & -> & ->).
  cbn [store_file next_file_id fst snd m_packageFiles m_nextPackageFileID m_deviceID
       iFileSize].
  split; [|split; [|split; reflexivity]].
  - eexists. split; [apply lookup_insert_eq|].
    rewrite length_store_bytes, length_replicate.
    pose proof (size_t_range in_fileID) as Hrange.
    rewrite wrap_int64_small by lia. lia.
  - intros k Hk. apply lookup_insert_ne. congruence.
Qed.

(** X7. A Read through a package handle whose entry is in the store, for a
    range that lies inside the stored buffer, succeeds: the first [size]
    bytes of the output buffer become the bytes of the stored buffer from
    [position] on, the rest of the output buffer, the hook and the file
    system stay as they were. *)
Theorem Read_window (this : TigerPackageIo) (w : World) (d : AkFileDesc)
    (out buffer : list byte) (ti : AkIOTransferInfo) :
  handle_is_package (hFile d) = true ->
  m_packageFiles this !! handle_file_id (hFile d) = Some buffer ->
  transfer_in_range ti ->
  uFilePosition ti + uRequestedSize ti <= Z.of_nat (length buffer) ->
  uRequestedSize ti <= Z.of_nat (length out) ->
  Read this w d out ti
  = Returns (AK_Success, this,
             take (Z.to_nat (uRequestedSize ti)) (drop (Z.to_nat (uFilePosition ti)) buffer)
             ++ drop (Z.to_nat (uRequestedSize ti)) out,
             w).
Proof.
  intros Hpkg Hfind (Hpos & _ & Hreq) Hin Hout.
  rewrite Read_package, Hfind by exact Hpkg.
  unfold vector_max_size, UINT64_MAX in *.
  assert (Hcheck : (Z.of_nat (length buffer)
                    <? wrap_uint64 (uFilePosition ti + uRequestedSize ti)) = false).
  { apply Z.ltb_ge. unfold wrap_uint64.
    pose proof (Z.mod_le (uFilePosition ti + uRequestedSize ti) (2 ^ 64)). lia. }
  rewrite Hcheck, memcpy_in_bounds by lia. reflexivity.
Qed.

(** X9. Read never touches memory outside its buffers as long as the sum of
    position and size does not wrap and the output buffer holds the
    requested size: on every descriptor and every store it returns, and it
    returns the hook as it was. *)
Theorem Read_returns_without_wrap (this : TigerPackageIo) (w : World) (d : AkFileDesc)
    (out : list byte) (ti : AkIOTransferInfo) :
  transfer_in_range ti ->
  uFilePosition ti + uRequestedSize ti <= UINT64_MAX ->
  uRequestedSize ti <= Z.of_nat (length out) ->
  exists res out' w', Read this w d out ti = Returns (res, this, out', w').
Proof.
  intros (Hpos & _ & Hreq) Hsum Hout. unfold Read.
  destruct (handle_is_package (hFile d)).
  - destruct (m_packageFiles this !! handle_file_id (hFile d)) as [buffer|];
      [|eauto].
    rewrite wrap_uint64_small by lia.
    destruct (Z.of_nat (length buffer) <? uFilePosition ti + uRequestedSize ti) eqn:Hc;
      [eauto|].
    apply Z.ltb_ge in Hc. rewrite memcpy_in_bounds by lia. eauto.
  - destruct (ReadFile w _ _ _ _) as [[ok transferred] w']. destruct ok; eauto.
Qed.

(** X10. Open and Read together: while the counter is below [2^31], every
    request that lies inside the size the fresh descriptor reports is
    served from the buffer the open stored. *)
Theorem Read_window_after_Open (this : TigerPackageIo) (in_fileID : Z) (d0 : AkFileDesc)
    (this' : TigerPackageIo) (d : AkFileDesc) (w : World) (out : list byte)
    (ti : AkIOTransferInfo) :
  key_in_range (m_nextPackageFileID this) ->
  Open this in_fileID d0 = Returns (AK_Success, this', d) ->
  transfer_in_range ti ->
  uFilePosition ti + uRequestedSize ti <= iFileSize d ->
  uRequestedSize ti <= Z.of_nat (length out) ->
  exists buffer,
    m_packageFiles this' !! m_nextPackageFileID this = Some buffer /\
    Read this' w d out ti
    = Returns (AK_Success, this',
               take (Z.to_nat (uRequestedSize ti))
                    (drop (Z.to_nat (uFilePosition ti)) buffer)
               ++ drop (Z.to_nat (uRequestedSize ti)) out,
               w).
Proof using size_t_range.
  intros Hkey Hopen (Hpos & _ & Hreq) Hin Hout.
  apply Open_success_inv in Hopen. destruct Hopen as (Hmax & written & _ & -> & ->).
  pose proof (size_t_range in_fileID) as Hrange.
  cbn [iFileSize] in Hin. rewrite wrap_int64_small in Hin by lia.
  eexists. split; [apply lookup_insert_eq|].
  rewrite Read_package by apply handle_is_package_package_handle.
  cbn [hFile next_file_id fst snd store_file m_packageFiles].
  rewrite handle_file_id_package_handle, (Z.mod_small _ _ Hkey), lookup_insert_eq.
  assert (Hlen : Z.of_nat (length (store_bytes
                    (replicate (Z.to_nat (ddumbe_get_wwise_file_size_by_id in_fileID)) x00)
                    written))
                 = ddumbe_get_wwise_file_size_by_id in_fileID).
  { rewrite length_store_bytes, length_replicate. lia. }
  unfold vector_max_size, UINT64_MAX in *.
  rewrite wrap_uint64_small by (unfold UINT64_MAX; lia).
  assert (Hcheck : (Z.of_nat (length (store_bytes
                      (replicate (Z.to_nat (ddumbe_get_wwise_file_size_by_id in_fileID)) x00)
                      written))
                    <? uFilePosition ti + uRequestedSize ti) = false)
    by (apply Z.ltb_ge; lia).
  rewrite Hcheck, memcpy_in_bounds by lia. reflexivity.
Qed.

(** ** Close, and what one descriptor sees of the others *)

Lemma erase_file_absent (this : TigerPackageIo) (k : Z) :
  m_packageFiles this !! k = None -> erase_file this k = this.
Proof.
  intros Habs. destruct this as [dev files next]. unfold erase_file. simpl in *.
  rewrite delete_id by exact Habs. reflexivity.
Qed.

Lemma Close_package (this : TigerPackageIo) (w : World) (d : AkFileDesc) :
  handle_is_package (hFile d) = true ->
  Close this w d = (AK_Success, erase_file this (handle_file_id (hFile d)), w).
Proof. intros Hpkg. unfold Close. rewrite Hpkg. reflexivity. Qed.

(** The result of Read depends on the store through the entry of the
    handle's key only. *)
Lemma Read_depends_on_entry (a b : TigerPackageIo) (w : World) (d : AkFileDesc)
    (out : list byte) (ti : AkIOTransferInfo) :
  m_packageFiles a !! handle_file_id (hFile d)
  = m_packageFiles b !! handle_file_id (hFile d) ->
  transfer_result (Read a w d out ti) = transfer_result (Read b w d out ti).
Proof.
  intros Hsame. unfold Read. destruct (handle_is_package (hFile d)).
  - rewrite Hsame.
    destruct (m_packageFiles b !! handle_file_id (hFile d)) as [buffer|]; [|reflexivity].
    destruct (Z.of_nat (length buffer) <? _); [reflexivity|].
    destruct (memcpy out buffer _ _); reflexivity.
  - destruct (ReadFile w _ _ _ _) as [[ok transferred] w']. destruct ok; reflexivity.
Qed.

(** X11. Close on a package handle is idempotent and never fails: a second
    Close of the same descriptor gives what the first gave, and the Close of
    a handle whose key is not in the store (stale, or never opened) reports
    success and leaves the hook and the file system exactly as they were. *)
Theorem Close_twice (this : TigerPackageIo) (w : World) (d : AkFileDesc) :
  handle_is_package (hFile d) = true ->
  Close (Close this w d).1.2 (Close this w d).2 d = Close this w d /\
  (m_packageFiles this !! handle_file_id (hFile d) = None ->
   Close this w d = (AK_Success, this, w)).
Proof.
  intros Hpkg. rewrite !Close_package by exact Hpkg. cbn [fst snd]. split.
  - f_equal. f_equal. apply erase_file_absent. apply lookup_delete_eq.
  - intros Habs. rewrite erase_file_absent by exact Habs. reflexivity.
Qed.

(** X12. Close touches one key only: after the Close of any descriptor,
    native or package, every Read through a handle that names another key
    gives what it gave before, and the counter and the device identity are
    unchanged. *)
Theorem Close_frame (this : TigerPackageIo) (w : World) (d d' : AkFileDesc) :
  handle_file_id (hFile d') <> handle_file_id (hFile d) ->
  (forall (w' : World) (out : list byte) (ti : AkIOTransferInfo),
      transfer_result (Read (Close this w d).1.2 w' d' out ti)
      = transfer_result (Read this w' d' out ti)) /\
  m_nextPackageFileID (Close this w d).1.2 = m_nextPackageFileID this /\
  m_deviceID (Close this w d).1.2 = m_deviceID this.
Proof.
  intros Hne. destruct (Close_state this w d) as [Hs | Hs]; rewrite Hs.
  - auto.
  - split; [|split; reflexivity]. intros w' out ti.
    apply Read_depends_on_entry. cbn [erase_file m_packageFiles].
    apply lookup_delete_ne. congruence.
Qed.

(** X13. An open by file ID, successful or not, leaves alone every
    descriptor whose key is not the value the counter had: a Read through
    it gives what it gave before the open. *)
Theorem Open_frame (this : TigerPackageIo) (in_fileID : Z) (d0 : AkFileDesc)
    (res : AKRESULT) (this' : TigerPackageIo) (d d' : AkFileDesc) :
  Open this in_fileID d0 = Returns (res, this', d) ->
  handle_file_id (hFile d') <> m_nextPackageFileID this ->
  forall (w : World) (out : list byte) (ti : AkIOTransferInfo),
    transfer_result (Read this' w d' out ti) = transfer_result (Read this w d' out ti).
Proof.
  intros Hopen Hne w out ti. apply Open_state in Hopen.
  destruct Hopen as [-> | [buffer ->]]; [reflexivity|].
  apply Read_depends_on_entry. cbn [store_file next_file_id fst snd m_packageFiles].
  apply lookup_insert_ne. congruence.
Qed.

(** ** The store along runs of calls *)

Lemma do_call_keeps_keys_below_counter (this : TigerPackageIo) (w : World) (c : call)
    (this' : TigerPackageIo) (w' : World) :
  do_call this w c = Some (this', w') ->
  keys_below_counter this ->
  0 <= m_nextPackageFileID this < UINT64_MAX ->
  keys_below_counter this' /\
  m_nextPackageFileID this <= m_nextPackageFileID this' <= m_nextPackageFileID this + 1.
Proof.
  intros Hcall Hinv Hctr. apply do_call_state in Hcall.
  destruct Hcall as [-> | [[k ->] | [buffer ->]]].
  - split; [exact Hinv | lia].
  - split; [|cbn [erase_file m_nextPackageFileID]; lia].
    intros j Hj. cbn [erase_file m_packageFiles m_nextPackageFileID] in *.
    apply lookup_delete_is_Some in Hj. apply Hinv. apply Hj.
  - assert (Hw : wrap_uint64 (m_nextPackageFileID this + 1) = m_nextPackageFileID this + 1)
      by (apply wrap_uint64_small; lia).
    cbn [store_file next_file_id fst snd m_packageFiles m_nextPackageFileID].
    rewrite Hw. split; [|lia].
    intros j Hj. cbn [store_file m_packageFiles] in Hj.
    apply lookup_insert_is_Some in Hj.
    destruct Hj as [<- | [_ Hj]]; cbn [store_file m_nextPackageFileID]; [lia|].
    apply Hinv in Hj. lia.
Qed.

(** X14. Every key in the package store is a value the counter has passed,
    and this stays so along any run of Open, Read, Write and Close calls
    that does not wrap the counter; along the run the counter never
    decreases and advances by at most one per call. *)
Theorem run_keeps_keys_below_counter (calls : list call) :
  forall (this : TigerPackageIo) (w : World) (this' : TigerPackageIo) (w' : World),
    keys_below_counter this ->
    0 <= m_nextPackageFileID this ->
    m_nextPackageFileID this + Z.of_nat (length calls) <= UINT64_MAX ->
    run calls this w = Some (this', w') ->
    keys_below_counter this' /\
    m_nextPackageFileID this <= m_nextPackageFileID this'
    <= m_nextPackageFileID this + Z.of_nat (length calls).
Proof.
  induction calls as [|c rest IH]; intros this w this' w' Hinv Hlo Hhi Hrun.
  - simpl in Hrun. inversion Hrun; subst. simpl. split; [exact Hinv | lia].
  - simpl in Hrun. rewrite length_cons, Nat2Z.inj_succ in *.
    destruct (do_call this w c) as [[this1 w1]|] eqn:Hcall; [|discriminate].
    apply do_call_keeps_keys_below_counter in Hcall; [|exact Hinv|lia].
    destruct Hcall as [Hinv1 Hctr1].
    destruct (IH this1 w1 this' w' Hinv1) as [Hinv' Hctr']; [lia | lia | exact Hrun |].
    split; [exact Hinv' | lia].
Qed.

(** X15. While every stored key is below the counter, a successful open by
    file ID takes a key that was not in the store: no live buffer is
    replaced, every buffer that was in the store is still there, and the
    store has one entry more. *)
Theorem Open_takes_fresh_key (this : TigerPackageIo) (in_fileID : Z) (d0 : AkFileDesc)
    (this' : TigerPackageIo) (d : AkFileDesc) :
  keys_below_counter this ->
  Open this in_fileID d0 = Returns (AK_Success, this', d) ->
  m_packageFiles this !! m_nextPackageFileID this = None /\
  (forall k buffer, m_packageFiles this !! k = Some buffer ->
                    m_packageFiles this' !! k = Some buffer) /\
  size (m_packageFiles this') = S (size (m_packageFiles this)).
Proof.
  intros Hinv Hopen.
  assert (Hfresh : m_packageFiles this !! m_nextPackageFileID this = None).
  { destruct (m_packageFiles this !! m_nextPackageFileID this) as [b|] eqn:Hb;
      [|reflexivity].
    assert (Hs : is_Some (m_packageFiles this !! m_nextPackageFileID this))
      by (rewrite Hb; eauto).
    apply Hinv in Hs. lia. }
  apply Open_success_inv in Hopen. destruct Hopen as (_ & written & _ & -> & _).
  cbn [store_file next_file_id fst snd m_packageFiles].
  split; [exact Hfresh|]. split.
  - intros k buffer Hk. rewrite lookup_insert_ne; [exact Hk|]. congruence.
  - apply map_size_insert_None. exact Hfresh.
Qed.

(** ** Open by name *)

Lemma handle_is_package_low (h : Z) : 0 <= h < 2 ^ 31 -> handle_is_package h = false.
Proof.
  intros Hh. unfold handle_is_package.
  assert (H64 : 0 <= h <= UINT64_MAX) by (unfold UINT64_MAX; lia).
  pose proof (handle_split h H64) as Hsplit.
  rewrite (Z.mod_small h) in Hsplit by lia.
  replace (Z.land h package_bit_mask) with 0 by lia. reflexivity.
Qed.

Lemma handle_is_package_high (h : Z) :
  2 ^ 31 <= h <= UINT64_MAX -> handle_is_package h = true.
Proof.
  intros Hh. unfold handle_is_package.
  assert (H64 : 0 <= h <= UINT64_MAX) by lia.
  pose proof (handle_split h H64) as Hsplit.
  pose proof (Z.mod_pos_bound h (2 ^ 31)) as Hmod.
  rewrite negb_true_iff, Z.eqb_neq. lia.
Qed.

(** X16. What an open by name can come to. With NULL flags the log line
    dereferences the pointer. With flags, the call returns the status of
    the native open, unchanged; it never changes the hook, so it takes no
    package key; the descriptor gets the handle the native open left. On
    success the descriptor also gets sector 0, no custom parameter, the
    device identity of the hook, and as size the 64-bit value of the two
    halves of [::GetFileSize] (their plain sum [low + high * 2^32] when
    it fits 63 bits); on failure the other fields stay as they were. *)
Theorem Open_by_name_outcomes (this : TigerPackageIo) (w : World) (name : FileName)
    (mode : AkOpenMode) (d0 : AkFileDesc) :
  Open_by_name this w name mode None d0 = UndefinedAccess /\
  forall flags : AkFileSystemFlags,
    let os := OpenFile w name mode false false (hFile d0) in
    let low := (GetFileSize os.2 os.1.2).1 in
    let high := (GetFileSize os.2 os.1.2).2 in
    match Open_by_name this w name mode (Some flags) d0 with
    | Returns (res, this', d, w') =>
        res = os.1.1 /\ this' = this /\ w' = os.2 /\ hFile d = os.1.2 /\
        (res = AK_Success ->
         uSector d = 0 /\ uCustomParamSize d = 0 /\ pCustomParam d = 0 /\
         deviceID d = m_deviceID this /\
         iFileSize d = wrap_int64 (QuadPart low high) /\
         (0 <= low <= UINT32_MAX -> 0 <= high < 2 ^ 31 ->
          iFileSize d = low + high * 2 ^ 32)) /\
        (res <> AK_Success -> d = set_hFile d0 os.1.2)
    | _ => False
    end.
Proof.
  split; [reflexivity|]. intros flags os low high. unfold Open_by_name. fold os.
  subst low high. destruct os as [[res h] w'] eqn:Hos. cbn [fst snd].
  destruct res;
    try (repeat (split; [reflexivity|]); split; [discriminate | reflexivity]).
  destruct (GetFileSize w' h) as [low high]. cbn [fst snd].
  repeat (split; [reflexivity|]). split; [|congruence].
  intros _. repeat (split; [reflexivity|]).
  intros Hlow Hhigh. cbn [iFileSize]. unfold QuadPart, wrap_uint32, UINT32_MAX in *.
  rewrite !Z.mod_small by lia. unfold wrap_int64.
  rewrite Z.mod_small by lia. lia.
Qed.

(** X17. A file opened by name is served by the native primitives only
    when the handle the native open gave is below [2^31]: then Read and
    Close on the returned descriptor go to [::ReadFile] and [CloseFile]
    with that handle. A handle from [2^31] on is taken for a package
    handle: Close on the returned descriptor reports success without ever
    reaching [CloseFile]. *)
Theorem Open_by_name_then_transfer (this : TigerPackageIo) (w : World) (name : FileName)
    (mode : AkOpenMode) (flags : AkFileSystemFlags) (d0 : AkFileDesc)
    (h : Z) (w1 : World) :
  OpenFile w name mode false false (hFile d0) = (AK_Success, h, w1) ->
  exists d,
    Open_by_name this w name mode (Some flags) d0 = Returns (AK_Success, this, d, w1) /\
    hFile d = h /\
    (0 <= h < 2 ^ 31 ->
     (forall (w2 : World) (out : list byte) (ti : AkIOTransferInfo),
         let os := ReadFile w2 h (uRequestedSize ti)
                     (overlapped_Offset (uFilePosition ti))
                     (overlapped_OffsetHigh (uFilePosition ti)) in
         Read this w2 d out ti
         = Returns (if os.1.1 then AK_Success else AK_Fail, this,
                    store_bytes out os.1.2, os.2)) /\
     (forall w2 : World,
         Close this w2 d = ((CloseFile w2 h).1, this, (CloseFile w2 h).2))) /\
    (2 ^ 31 <= h <= UINT64_MAX ->
     forall w2 : World,
       Close this w2 d = (AK_Success, erase_file this (handle_file_id h), w2)).
Proof.
  intros Hos. unfold Open_by_name. rewrite Hos.
  destruct (GetFileSize w1 h) as [low high].
  eexists. split; [reflexivity|]. cbn [hFile]. split; [reflexivity|]. split.
  - intros Hlow. apply handle_is_package_low in Hlow. split.
    + intros w2 out ti. apply Read_native. exact Hlow.
    + intros w2. unfold Close. cbn [hFile]. rewrite Hlow.
      destruct (CloseFile w2 h). reflexivity.
  - intros Hhigh w2. apply Close_package. apply handle_is_package_high. exact Hhigh.
Qed.

(** ** Init, Term and the device identity *)

(** X18. Init and Term on a streaming manager that keeps its resolver slot.
    With the blocking scheduler: when no resolver is registered, Init
    registers the hook and Term takes it out again; when another resolver
    is registered, Init does not replace it and Term leaves it; when the
    hook itself was registered before, Term takes it out. Term hands back
    the hook object as it was, package store included. *)
Theorem Init_Term_resolver (this : TigerPackageIo) (this_ptr : Z) (mgr : StreamMgr)
    (settings : AkDeviceSettings) :
  resolver_slot_laws ->
  uSchedulerTypeFlags settings = AK_SCHEDULER_BLOCKING ->
  let i := Init this this_ptr mgr settings in
  let t := Term i.1.2 this_ptr i.2 in
  (GetFileLocationResolver mgr = None ->
   GetFileLocationResolver i.2 = Some this_ptr /\ GetFileLocationResolver t.2 = None) /\
  (forall p, GetFileLocationResolver mgr = Some p ->
             GetFileLocationResolver i.2 = Some p /\
             GetFileLocationResolver t.2 = if p =? this_ptr then None else Some p) /\
  t.1 = i.1.2.
Proof.
  intros (Hset & Hcreate & Hdestroy) Hflags i t.
  assert (Hi : GetFileLocationResolver i.2
               = GetFileLocationResolver
                   match GetFileLocationResolver mgr with
                   | None => SetFileLocationResolver (Some this_ptr) mgr
                   | Some _ => mgr
                   end).
  { subst i. unfold Init. apply Z.eqb_eq in Hflags. rewrite Hflags. cbn [negb].
    pose proof (Hcreate settings this_ptr
                  match GetFileLocationResolver mgr with
                  | None => SetFileLocationResolver (Some this_ptr) mgr
                  | Some _ => mgr
                  end) as Hc.
    destruct (CreateDevice settings this_ptr _) as [id mgr2]. cbn [snd] in Hc.
    destruct (negb (id =? AK_INVALID_DEVICE_ID)); exact Hc. }
  assert (Ht : GetFileLocationResolver t.2
               = match GetFileLocationResolver i.2 with
                 | Some p => if p =? this_ptr then None else Some p
                 | None => None
                 end).
  { subst t. unfold Term. cbn [snd]. rewrite Hdestroy.
    destruct (GetFileLocationResolver i.2) as [p|] eqn:Hp; [|exact Hp].
    destruct (p =? this_ptr); [apply Hset | exact Hp]. }
  split; [|split; [|reflexivity]].
  - intros Hnone. rewrite Hnone, Hset in Hi. rewrite Ht, Hi, Z.eqb_refl. auto.
  - intros p Hsome. rewrite Hsome in Hi. rewrite Hsome in Hi.
    rewrite Ht, Hi. auto.
Qed.

Lemma run_keeps_device (calls : list call) :
  forall (this : TigerPackageIo) (w : World) (this' : TigerPackageIo) (w' : World),
    run calls this w = Some (this', w') -> m_deviceID this' = m_deviceID this.
Proof.
  induction calls as [|c rest IH]; intros this w this' w' Hrun; simpl in Hrun.
  - inversion Hrun. reflexivity.
  - destruct (do_call this w c) as [[this1 w1]|] eqn:Hcall; [|discriminate].
    rewrite (IH _ _ _ _ Hrun). apply do_call_state in Hcall.
    destruct Hcall as [-> | [[k ->] | [buffer ->]]]; reflexivity.
Qed.

(** X20. The device identity. After Init with the blocking scheduler and any
    run of Open, Read, Write and Close calls, the hook still holds the
    identity device creation reported: [GetDeviceDesc] reports it, as a
    device that can read and cannot write, and every descriptor opened from
    then on, by file ID or by name, carries it. *)
Theorem device_identity_stamped (this : TigerPackageIo) (this_ptr : Z) (mgr : StreamMgr)
    (settings : AkDeviceSettings) (calls : list call) (w : World)
    (this' : TigerPackageIo) (w' : World) :
  uSchedulerTypeFlags settings = AK_SCHEDULER_BLOCKING ->
  run calls (Init this this_ptr mgr settings).1.2 w = Some (this', w') ->
  let mgr1 := match GetFileLocationResolver mgr with
              | None => SetFileLocationResolver (Some this_ptr) mgr
              | Some _ => mgr
              end in
  let id := (CreateDevice settings this_ptr mgr1).1 in
  (forall dd, DeviceDesc.deviceID (GetDeviceDesc this' dd) = id /\
              DeviceDesc.bCanRead (GetDeviceDesc this' dd) = true /\
              DeviceDesc.bCanWrite (GetDeviceDesc this' dd) = false) /\
  (forall in_fileID d0 this'' d,
      Open this' in_fileID d0 = Returns (AK_Success, this'', d) -> deviceID d = id) /\
  (forall w2 name mode flags d0 this'' d w3,
      Open_by_name this' w2 name mode flags d0 = Returns (AK_Success, this'', d, w3) ->
      deviceID d = id).
Proof.
  intros Hflags Hrun mgr1 id.
  assert (Hid : m_deviceID this' = id).
  { rewrite (run_keeps_device _ _ _ _ _ Hrun). subst id mgr1. unfold Init.
    apply Z.eqb_eq in Hflags. rewrite Hflags. cbn [negb].
    destruct (CreateDevice settings this_ptr _) as [id' mgr2].
    destruct (negb (id' =? AK_INVALID_DEVICE_ID)); reflexivity. }
  split; [|split].
  - intros dd. cbn. auto.
  - intros in_fileID d0 this'' d Hopen. apply Open_success_inv in Hopen.
    destruct Hopen as (_ & written & _ & _ & ->). exact Hid.
  - intros w2 name mode flags d0 this'' d w3 Hopen. unfold Open_by_name in Hopen.
    destruct flags as [f|]; [|discriminate].
    destruct (OpenFile w2 name mode false false (hFile d0)) as [[res h] w4].
    destruct res; try (inversion Hopen; fail).
    destruct (GetFileSize w4 h) as [low high]. inversion Hopen; subst. exact Hid.
Qed.

(** ** The static hook object *)

Lemma run_counter_bound (calls : list call) :
  forall (this : TigerPackageIo) (w : World) (this' : TigerPackageIo) (w' : World),
    0 <= m_nextPackageFileID this ->
    m_nextPackageFileID this + Z.of_nat (length calls) <= UINT64_MAX ->
    run calls this w = Some (this', w') ->
    m_nextPackageFileID this <= m_nextPackageFileID this'
    <= m_nextPackageFileID this + Z.of_nat (length calls).
Proof.
  induction calls as [|c rest IH]; intros this w this' w' Hlo Hhi Hrun; simpl in Hrun.
  - inversion Hrun; subst. simpl. lia.
  - rewrite length_cons, Nat2Z.inj_succ in *.
    destruct (do_call this w c) as [[this1 w1]|] eqn:Hcall; [|discriminate].
    apply do_call_state in Hcall.
    destruct Hcall as [-> | [[k ->] | [buffer ->]]].
    + specialize (IH this w1 this' w' ltac:(lia) ltac:(lia) Hrun). lia.
    + specialize (IH (erase_file this k) w1 this' w').
      cbn [erase_file m_nextPackageFileID] in IH.
      specialize (IH ltac:(lia) ltac:(lia) Hrun). lia.
    + specialize (IH (store_file (next_file_id this).2 (next_file_id this).1 buffer)
                     w1 this' w').
      assert (Hw : wrap_uint64 (m_nextPackageFileID this + 1) = m_nextPackageFileID this + 1)
        by (apply wrap_uint64_small; lia).
      cbn [store_file next_file_id fst snd m_nextPackageFileID] in IH, Hrun.
      rewrite Hw in IH, Hrun.
      specialize (IH ltac:(lia) ltac:(lia) Hrun). lia.
Qed.

(** X21. The static hook object of [tiger_streaming_mgr.cpp] starts with an
    empty store and the counter at 0, and [InitTigerStreamMgr] changes
    neither. So for the first [2^31 - 1] calls after it the counter stays
    inside the key bits of the handle: the handle of every descriptor
    opened by file ID names the very entry that open stored. *)
Theorem static_hook_handles (g_ptr : Z) (mgr : StreamMgr) (settings : AkDeviceSettings)
    (calls : list call) (w : World) (this : TigerPackageIo) (w' : World) :
  run calls (InitTigerStreamMgr g_lowLevelIO g_ptr mgr settings).1.2 w = Some (this, w') ->
  Z.of_nat (length calls) < 2 ^ 31 ->
  key_in_range (m_nextPackageFileID this) /\
  forall in_fileID d0 this' d,
    Open this in_fileID d0 = Returns (AK_Success, this', d) ->
    handle_file_id (hFile d) = m_nextPackageFileID this /\
    is_Some (m_packageFiles this' !! handle_file_id (hFile d)).
Proof.
  intros Hrun Hlen.
  assert (Hstart : m_nextPackageFileID (InitTigerStreamMgr g_lowLevelIO g_ptr mgr settings).1.2
                   = 0).
  { unfold InitTigerStreamMgr, Init.
    destruct (negb (uSchedulerTypeFlags settings =? AK_SCHEDULER_BLOCKING)); [reflexivity|].
    destruct (CreateDevice settings g_ptr _) as [id mgr2].
    destruct (negb (id =? AK_INVALID_DEVICE_ID)); reflexivity. }
  pose proof (run_counter_bound calls
                (InitTigerStreamMgr g_lowLevelIO g_ptr mgr settings).1.2 w this w') as Hbound.
  rewrite Hstart in Hbound. unfold UINT64_MAX in Hbound.
  specialize (Hbound ltac:(lia) ltac:(lia) Hrun).
  assert (Hkey : key_in_range (m_nextPackageFileID this)) by (unfold key_in_range; lia).
  split; [exact Hkey|].
  intros in_fileID d0 this' d Hopen. apply Open_success_inv in Hopen.
  destruct Hopen as (_ & written & _ & -> & ->).
  cbn [hFile next_file_id fst snd store_file m_packageFiles].
  rewrite handle_file_id_package_handle, (Z.mod_small _ _ Hkey).
  split; [reflexivity|]. rewrite lookup_insert_eq. eauto.
Qed.

End Hook.

(** ** The hook on the concrete environment *)

Import Scenario.

(** The scenario of the specification, run: the open of ID [0x10] succeeds;
    the read of 2 bytes at position 1 gives [02 03]; the read of 2 bytes at
    position 3 fails and leaves the buffer alone; Close succeeds and empties
    the store. *)
Example scenario_run :
  Open file_size_by_id read_file_by_id fresh 16 no_desc
  = Returns (AK_Success, opened, opened_desc) /\
  Read World ReadFile opened ∅ opened_desc (zeros 2) (request 1 2)
  = Returns (AK_Success, opened, [x02; x03], ∅) /\
  Read World ReadFile opened ∅ opened_desc (zeros 2) (request 3 2)
  = Returns (AK_Fail, opened, zeros 2, ∅) /\
  (Close World CloseFile opened ∅ opened_desc).1.1 = AK_Success /\
  m_packageFiles (Close World CloseFile opened ∅ opened_desc).1.2 = ∅.
Proof.
  split; [vm_compute; reflexivity|]. split; [vm_compute; reflexivity|].
  split; [vm_compute; reflexivity|]. split; vm_compute; reflexivity.
Qed.

Lemma file_size_by_id_range (id : Z) : 0 <= file_size_by_id id <= SIZE_MAX.
Proof.
  unfold file_size_by_id, SIZE_MAX. destruct (id =? 16); lia.
Defined.

Lemma request_in_range_0_4 : transfer_in_range (request 0 4).
Proof.
  unfold transfer_in_range, request, UINT64_MAX, UINT32_MAX. simpl. lia.
Defined.

(** Key 5 is in range and comes back from its handle. *)
Lemma decode_package_handle_witness :
  key_in_range 5 /\
  (Z.testbit (package_handle 5) 31 = true /\
   package_handle 5 mod 2 ^ 31 = 5 /\
   handle_is_package (package_handle 5) = true /\
   handle_file_id (package_handle 5) = 5 /\
   decode_handle (package_handle 5) = (true, 5)).
Proof.
  assert (H : key_in_range 5) by (unfold key_in_range; lia).
  split; [exact H | exact (decode_package_handle 5 H)].
Defined.

(** The scenario of the specification: ID [0x10], four bytes, read whole. *)
Lemma Read_after_Open_witness :
  key_in_range (m_nextPackageFileID fresh) /\
  file_size_by_id 16 = 4 /\
  read_file_by_id 16 4 = (AK_Success, asset) /\
  Z.of_nat (length asset) = 4 /\
  transfer_in_range (request 0 4) /\
  uFilePosition (request 0 4) = 0 /\
  uRequestedSize (request 0 4) = 4 /\
  4 <= Z.of_nat (length (zeros 4)) /\
  exists this' d,
    Open file_size_by_id read_file_by_id fresh 16 no_desc
    = Returns (AK_Success, this', d) /\
    iFileSize d = 4 /\
    Read World ReadFile this' ∅ d (zeros 4) (request 0 4)
    = Returns (AK_Success, this', asset ++ drop (Z.to_nat 4) (zeros 4), ∅).
Proof.
  assert (Hkey : key_in_range (m_nextPackageFileID fresh))
    by (unfold key_in_range; simpl; lia).
  assert (Hout : 4 <= Z.of_nat (length (zeros 4))) by (simpl; lia).
  repeat (split; [first [exact Hkey | exact request_in_range_0_4 | exact Hout
                        | reflexivity]|]).
  exact (Read_after_Open file_size_by_id read_file_by_id World ReadFile
           fresh 16 no_desc 4 asset ∅ (zeros 4) (request 0 4)
           Hkey eq_refl eq_refl eq_refl request_in_range_0_4 eq_refl eq_refl Hout).
Defined.

(** C2, where it fails: with the counter at [2^31] the open stores the
    buffer under key [2^31], the handle carries key 0, and the read of the
    whole asset through the fresh descriptor finds nothing and fails. *)
Lemma Read_after_Open_key_cut :
  file_size_by_id 16 = 4 /\
  read_file_by_id 16 4 = (AK_Success, asset) /\
  exists this' d,
    Open file_size_by_id read_file_by_id (hook_at (2 ^ 31)) 16 no_desc
    = Returns (AK_Success, this', d) /\
    m_packageFiles this' !! (2 ^ 31) = Some asset /\
    handle_file_id (hFile d) = 0 /\
    Read World ReadFile this' ∅ d (zeros 4) (request 0 4)
    = Returns (AK_Fail, this', zeros 4, ∅).
Proof.
  split; [reflexivity|]. split; [reflexivity|].
  eexists _, _. split; [vm_compute; reflexivity|].
  split; [vm_compute; reflexivity|].
  split; vm_compute; reflexivity.
Qed.

(** Two opens of ID [0x10] with the first descriptor closed in between. *)
Lemma Open_keys_increase_witness :
  0 <= m_nextPackageFileID fresh < UINT64_MAX /\
  Open file_size_by_id read_file_by_id fresh 16 no_desc
  = Returns (AK_Success, opened, opened_desc) /\
  Open file_size_by_id read_file_by_id
    (between_opens World CloseFile true opened ∅ opened_desc) 16 no_desc
  = Returns (AK_Success, reopened, reopened_desc) /\
  (is_Some (m_packageFiles opened !! (next_file_id fresh).1) /\
   is_Some (m_packageFiles reopened
            !! (next_file_id (between_opens World CloseFile true opened ∅ opened_desc)).1) /\
   (next_file_id fresh).1
   < (next_file_id (between_opens World CloseFile true opened ∅ opened_desc)).1 /\
   (m_nextPackageFileID fresh < 2 ^ 31 - 1 ->
    handle_file_id (hFile opened_desc) = (next_file_id fresh).1 /\
    handle_file_id (hFile reopened_desc)
    = (next_file_id (between_opens World CloseFile true opened ∅ opened_desc)).1) /\
   forall (that : TigerPackageIo) (w' : World) (d : AkFileDesc),
     m_nextPackageFileID (Close World CloseFile that w' d).1.2 = m_nextPackageFileID that).
Proof.
  assert (Hctr : 0 <= m_nextPackageFileID fresh < UINT64_MAX)
    by (unfold UINT64_MAX; simpl; lia).
  assert (H1 : Open file_size_by_id read_file_by_id fresh 16 no_desc
               = Returns (AK_Success, opened, opened_desc))
    by (vm_compute; reflexivity).
  assert (H2 : Open file_size_by_id read_file_by_id
                 (between_opens World CloseFile true opened ∅ opened_desc) 16 no_desc
               = Returns (AK_Success, reopened, reopened_desc))
    by (vm_compute; reflexivity).
  split; [exact Hctr|]. split; [exact H1|]. split; [exact H2|].
  exact (Open_keys_increase file_size_by_id read_file_by_id World CloseFile
           fresh 16 16 no_desc no_desc ∅ true opened reopened opened_desc reopened_desc
           Hctr H1 H2).
Defined.

(** C4, where it fails: with the counter at its last value the first open
    takes key [2^64 - 1], the counter wraps, and the second open takes
    key 0. *)
Lemma Open_keys_wrap :
  exists this1 d1 this2 d2,
    Open file_size_by_id read_file_by_id (hook_at UINT64_MAX) 16 no_desc
    = Returns (AK_Success, this1, d1) /\
    Open file_size_by_id read_file_by_id this1 16 no_desc
    = Returns (AK_Success, this2, d2) /\
    (next_file_id (hook_at UINT64_MAX)).1 = UINT64_MAX /\
    (next_file_id this1).1 = 0 /\
    ~ (next_file_id (hook_at UINT64_MAX)).1 < (next_file_id this1).1.
Proof.
  eexists _, _, _, _. split; [vm_compute; reflexivity|].
  split; [vm_compute; reflexivity|].
  split; [reflexivity|]. split; [reflexivity|].
  vm_compute. discriminate.
Qed.

(** The descriptor of the first open of the scenario. *)
Lemma Open_descriptor_witness :
  (forall id, 0 <= file_size_by_id id <= SIZE_MAX) /\
  Open file_size_by_id read_file_by_id fresh 16 no_desc
  = Returns (AK_Success, opened, opened_desc) /\
  (hFile opened_desc = package_handle (m_nextPackageFileID fresh) /\
   handle_is_package (hFile opened_desc) = true /\
   iFileSize opened_desc = file_size_by_id 16 /\
   uSector opened_desc = 0 /\
   deviceID opened_desc = m_deviceID fresh /\
   GetBlockSize opened_desc = 1).
Proof.
  assert (H1 : Open file_size_by_id read_file_by_id fresh 16 no_desc
               = Returns (AK_Success, opened, opened_desc))
    by (vm_compute; reflexivity).
  split; [exact file_size_by_id_range|]. split; [exact H1|].
  exact (Open_descriptor file_size_by_id read_file_by_id file_size_by_id_range
           fresh 16 no_desc opened opened_desc H1).
Defined.

(** C8, where it fails: the open succeeds and the sector field of the
    descriptor is 0, not 1. *)
Lemma Open_sector_zero :
  exists this' d,
    Open file_size_by_id read_file_by_id fresh 16 no_desc
    = Returns (AK_Success, this', d) /\
    uSector d = 0 /\ uSector d <> 1.
Proof.
  exists opened, opened_desc. split; [vm_compute; reflexivity|].
  split; [reflexivity | discriminate].
Qed.



(** A write through the package descriptor of the scenario, on a file
    system that does not know the handle. *)
Lemma Write_package_handle_witness :
  handle_is_package (hFile opened_desc) = true /\
  (Write World WriteFile opened ∅ opened_desc [x05; x06] (request 0 2)
   = (if (WriteFile ∅ (hFile opened_desc) [x05; x06] (uRequestedSize (request 0 2))
            (overlapped_Offset (uFilePosition (request 0 2)))
            (overlapped_OffsetHigh (uFilePosition (request 0 2)))).1.1
      then AK_Success else AK_Fail,
      opened,
      (WriteFile ∅ (hFile opened_desc) [x05; x06] (uRequestedSize (request 0 2))
         (overlapped_Offset (uFilePosition (request 0 2)))
         (overlapped_OffsetHigh (uFilePosition (request 0 2)))).2) /\
   m_packageFiles (Write World WriteFile opened ∅ opened_desc [x05; x06] (request 0 2)).1.2
   = m_packageFiles opened).
Proof.
  assert (H : handle_is_package (hFile opened_desc) = true) by reflexivity.
  split; [exact H|].
  exact (Write_package_handle World WriteFile opened ∅ opened_desc [x05; x06]
           (request 0 2) H).
Defined.

(** C9, where it fails: on a file system in which the value of the handle
    names an open file, the write through the package-flagged descriptor
    succeeds. *)
Lemma Write_package_handle_succeeds :
  handle_is_package (hFile opened_desc) = true /\
  Write World WriteFile opened aliased_file opened_desc [x05; x06] (request 0 2)
  = (AK_Success, opened, {[ package_handle 0 := [x05; x06] ]}) /\
  (Write World WriteFile opened aliased_file opened_desc [x05; x06] (request 0 2)).1.1
  <> AK_Fail.
Proof.
  split; [reflexivity|]. split; [vm_compute; reflexivity|].
  vm_compute. discriminate.
Qed.

(** Init with the deferred scheduler on an empty streaming manager. *)
Lemma Init_not_blocking_witness :
  uSchedulerTypeFlags deferred <> AK_SCHEDULER_BLOCKING /\
  Init StreamMgr GetFileLocationResolver SetFileLocationResolver CreateDevice
    AK_SCHEDULER_BLOCKING AK_INVALID_DEVICE_ID fresh 4096 no_mgr deferred
  = (AK_Fail, fresh, no_mgr).
Proof.
  assert (H : uSchedulerTypeFlags deferred <> AK_SCHEDULER_BLOCKING) by discriminate.
  split; [exact H|].
  exact (Init_not_blocking StreamMgr GetFileLocationResolver SetFileLocationResolver
           CreateDevice AK_SCHEDULER_BLOCKING AK_INVALID_DEVICE_ID
           fresh 4096 no_mgr deferred H).
Defined.

(** Init with the blocking scheduler on a streaming manager that cannot
    create the device. *)
Lemma Init_blocking_witness :
  uSchedulerTypeFlags blocking = AK_SCHEDULER_BLOCKING /\
  (let mgr1 := match GetFileLocationResolver no_mgr with
               | None => SetFileLocationResolver (Some 4096) no_mgr
               | Some _ => no_mgr
               end in
   let created := CreateDevice_full blocking 4096 mgr1 in
   Init StreamMgr GetFileLocationResolver SetFileLocationResolver CreateDevice_full
     AK_SCHEDULER_BLOCKING AK_INVALID_DEVICE_ID fresh 4096 no_mgr blocking
   = (AK_Success, set_device fresh created.1, created.2) /\
   (created.1 = AK_INVALID_DEVICE_ID ->
    (Init StreamMgr GetFileLocationResolver SetFileLocationResolver CreateDevice_full
       AK_SCHEDULER_BLOCKING AK_INVALID_DEVICE_ID fresh 4096 no_mgr blocking).1.1
    = AK_Success /\
    m_deviceID
      (Init StreamMgr GetFileLocationResolver SetFileLocationResolver CreateDevice_full
         AK_SCHEDULER_BLOCKING AK_INVALID_DEVICE_ID fresh 4096 no_mgr blocking).1.2
    = AK_INVALID_DEVICE_ID)).
Proof.
  assert (H : uSchedulerTypeFlags blocking = AK_SCHEDULER_BLOCKING) by reflexivity.
  split; [exact H|].
  exact (Init_blocking StreamMgr GetFileLocationResolver SetFileLocationResolver
           CreateDevice_full AK_SCHEDULER_BLOCKING AK_INVALID_DEVICE_ID
           fresh 4096 no_mgr blocking H).
Defined.

(** Init on the failing device creation, run: success is returned and the
    hook holds the invalid device identity. *)
Lemma Init_blocking_device_failure :
  Init StreamMgr GetFileLocationResolver SetFileLocationResolver CreateDevice_full
    AK_SCHEDULER_BLOCKING AK_INVALID_DEVICE_ID fresh 4096 no_mgr blocking
  = (AK_Success, fresh, {| resolver := Some 4096; devices := [] |}).
Proof. vm_compute. reflexivity. Qed.

(** C1, on the code: the package store holds the four bytes of the scenario
    under key 0; the request asks for 2 bytes at position [2^64 - 1]. The
    range ends far beyond the buffer, the sum of position and size wraps to
    1, the bounds test lets the request through, and the copy reads outside
    the buffer. *)
Theorem Read_position_wraps :
  handle_is_package (hFile opened_desc) = true /\
  m_packageFiles opened !! handle_file_id (hFile opened_desc) = Some asset /\
  transfer_in_range (request UINT64_MAX 2) /\
  Z.of_nat (length asset) < uFilePosition (request UINT64_MAX 2)
                            + uRequestedSize (request UINT64_MAX 2) /\
  wrap_uint64 (uFilePosition (request UINT64_MAX 2)
               + uRequestedSize (request UINT64_MAX 2)) = 1 /\
  memcpy (zeros 4) asset UINT64_MAX 2 = None /\
  Read World ReadFile opened ∅ opened_desc (zeros 4) (request UINT64_MAX 2)
  = UndefinedAccess.
Proof.
  split; [reflexivity|]. split; [reflexivity|].
  split; [unfold transfer_in_range, request, UINT64_MAX, UINT32_MAX; simpl; lia|].
  split; [unfold request, UINT64_MAX; simpl; lia|].
  split; [reflexivity|]. split; reflexivity.
Qed.

(** C7, on the code: a native file of one byte, and a request for 2 bytes at
    position 0. The native read reports success with one byte transferred;
    the condition of the assertion is false, and Read returns success. The
    same for Write on a device that takes one byte of the two. *)
Theorem Read_short_transfer :
  handle_is_package (hFile (desc_of 4)) = false /\
  ReadFile one_byte_file 4 2 0 0 = (true, [x2a], one_byte_file) /\
  transfer_assertion (Z.of_nat (length [x2a])) (uRequestedSize (request 0 2)) = false /\
  Read World ReadFile fresh one_byte_file (desc_of 4) (zeros 2) (request 0 2)
  = Returns (AK_Success, fresh, [x2a; x00], one_byte_file) /\
  (WriteFile_one one_byte_file 4 [x05; x06] 2 0 0).1.2 = 1 /\
  Write World WriteFile_one fresh one_byte_file (desc_of 4) [x05; x06] (request 0 2)
  = (AK_Success, fresh, {[ 4 := [x05] ]}).
Proof.
  split; [reflexivity|]. split; [reflexivity|]. split; [reflexivity|].
  split; [vm_compute; reflexivity|]. split; vm_compute; reflexivity.
Qed.

(** ** More runs on the concrete environment *)

Lemma fresh_keys_below_counter : keys_below_counter fresh.
Proof.
  intros k [buffer Hk]. simpl in Hk. rewrite lookup_empty in Hk. discriminate Hk.
Defined.

Lemma scenario_resolver_slot :
  resolver_slot_laws StreamMgr GetFileLocationResolver SetFileLocationResolver
    CreateDevice DestroyDevice.
Proof.
  split; [|split]; intros; reflexivity.
Defined.

Lemma request_in_range_1_2 : transfer_in_range (request 1 2).
Proof.
  unfold transfer_in_range, request, UINT64_MAX, UINT32_MAX. simpl. lia.
Defined.

Lemma request_in_range_3_2 : transfer_in_range (request 3 2).
Proof.
  unfold transfer_in_range, request, UINT64_MAX, UINT32_MAX. simpl. lia.
Defined.

(** Handle 4 is a 64-bit value below [2^31]. *)
Lemma handle_is_package_iff_witness :
  0 <= 4 <= UINT64_MAX /\ (handle_is_package 4 = true <-> 2 ^ 31 <= 4).
Proof.
  assert (H : 0 <= 4 <= UINT64_MAX) by (unfold UINT64_MAX; lia).
  split; [exact H | exact (handle_is_package_iff 4 H)].
Defined.

(** Keys 5 and [5 + 2^31]. *)
Lemma package_handle_eq_iff_witness :
  0 <= 5 <= UINT64_MAX /\ 0 <= 5 + 2 ^ 31 <= UINT64_MAX /\
  (package_handle 5 = package_handle (5 + 2 ^ 31)
   <-> 5 mod 2 ^ 31 = (5 + 2 ^ 31) mod 2 ^ 31).
Proof.
  assert (H1 : 0 <= 5 <= UINT64_MAX) by (unfold UINT64_MAX; lia).
  assert (H2 : 0 <= 5 + 2 ^ 31 <= UINT64_MAX) by (unfold UINT64_MAX; lia).
  split; [exact H1|]. split; [exact H2|].
  exact (package_handle_eq_iff 5 (5 + 2 ^ 31) H1 H2).
Defined.

Lemma package_handle_range_witness :
  0 <= 5 <= UINT64_MAX /\
  (2 ^ 64 - 2 ^ 31 <= package_handle 5 <= UINT64_MAX /\
   handle_is_package (package_handle 5) = true).
Proof.
  assert (H : 0 <= 5 <= UINT64_MAX) by (unfold UINT64_MAX; lia).
  split; [exact H | exact (package_handle_range 5 H)].
Defined.

(** Position [2^32 + 7]. *)
Lemma overlapped_offsets_witness :
  0 <= 2 ^ 32 + 7 <= UINT64_MAX /\
  (0 <= overlapped_Offset (2 ^ 32 + 7) <= UINT32_MAX /\
   0 <= overlapped_OffsetHigh (2 ^ 32 + 7) <= UINT32_MAX /\
   overlapped_Offset (2 ^ 32 + 7) + overlapped_OffsetHigh (2 ^ 32 + 7) * 2 ^ 32
   = 2 ^ 32 + 7).
Proof.
  assert (H : 0 <= 2 ^ 32 + 7 <= UINT64_MAX) by (unfold UINT64_MAX; lia).
  split; [exact H | exact (overlapped_offsets (2 ^ 32 + 7) H)].
Defined.

Lemma Open_stores_sized_buffer_witness :
  (forall id, 0 <= file_size_by_id id <= SIZE_MAX) /\
  Open file_size_by_id read_file_by_id fresh 16 no_desc
  = Returns (AK_Success, opened, opened_desc) /\
  ((exists buffer,
       m_packageFiles opened !! m_nextPackageFileID fresh = Some buffer /\
       Z.of_nat (length buffer) = iFileSize opened_desc) /\
   (forall k, k <> m_nextPackageFileID fresh ->
              m_packageFiles opened !! k = m_packageFiles fresh !! k) /\
   m_nextPackageFileID opened = wrap_uint64 (m_nextPackageFileID fresh + 1) /\
   m_deviceID opened = m_deviceID fresh).
Proof.
  assert (H1 : Open file_size_by_id read_file_by_id fresh 16 no_desc
               = Returns (AK_Success, opened, opened_desc))
    by (vm_compute; reflexivity).
  split; [exact file_size_by_id_range|]. split; [exact H1|].
  exact (Open_stores_sized_buffer file_size_by_id read_file_by_id file_size_by_id_range
           fresh 16 no_desc opened opened_desc H1).
Defined.

(** The read of 2 bytes at position 1 of the scenario. *)
Lemma Read_window_witness :
  handle_is_package (hFile opened_desc) = true /\
  m_packageFiles opened !! handle_file_id (hFile opened_desc) = Some asset /\
  transfer_in_range (request 1 2) /\
  uFilePosition (request 1 2) + uRequestedSize (request 1 2) <= Z.of_nat (length asset) /\
  uRequestedSize (request 1 2) <= Z.of_nat (length (zeros 2)) /\
  Read World ReadFile opened ∅ opened_desc (zeros 2) (request 1 2)
  = Returns (AK_Success, opened,
             take (Z.to_nat (uRequestedSize (request 1 2)))
                  (drop (Z.to_nat (uFilePosition (request 1 2))) asset)
             ++ drop (Z.to_nat (uRequestedSize (request 1 2))) (zeros 2),
             ∅).
Proof.
  assert (H1 : handle_is_package (hFile opened_desc) = true) by reflexivity.
  assert (H2 : m_packageFiles opened !! handle_file_id (hFile opened_desc) = Some asset)
    by reflexivity.
  assert (H3 : uFilePosition (request 1 2) + uRequestedSize (request 1 2)
               <= Z.of_nat (length asset)) by (simpl; lia).
  assert (H4 : uRequestedSize (request 1 2) <= Z.of_nat (length (zeros 2)))
    by (simpl; lia).
  split; [exact H1|]. split; [exact H2|]. split; [exact request_in_range_1_2|].
  split; [exact H3|]. split; [exact H4|].
  exact (Read_window World ReadFile opened ∅ opened_desc (zeros 2) asset (request 1 2)
           H1 H2 request_in_range_1_2 H3 H4).
Defined.

(** The read of 2 bytes at position 3 of the scenario. *)
Lemma Read_out_of_range_without_wrap_witness :
  handle_is_package (hFile opened_desc) = true /\
  m_packageFiles opened !! handle_file_id (hFile opened_desc) = Some asset /\
  transfer_in_range (request 3 2) /\
  uFilePosition (request 3 2) + uRequestedSize (request 3 2) <= UINT64_MAX /\
  Z.of_nat (length asset) < uFilePosition (request 3 2) + uRequestedSize (request 3 2) /\
  Read World ReadFile opened ∅ opened_desc (zeros 2) (request 3 2)
  = Returns (AK_Fail, opened, zeros 2, ∅).
Proof.
  assert (H1 : handle_is_package (hFile opened_desc) = true) by reflexivity.
  assert (H2 : m_packageFiles opened !! handle_file_id (hFile opened_desc) = Some asset)
    by reflexivity.
  assert (H3 : uFilePosition (request 3 2) + uRequestedSize (request 3 2) <= UINT64_MAX)
    by (unfold UINT64_MAX; simpl; lia).
  assert (H4 : Z.of_nat (length asset)
               < uFilePosition (request 3 2) + uRequestedSize (request 3 2))
    by (simpl; lia).
  split; [exact H1|]. split; [exact H2|]. split; [exact request_in_range_3_2|].
  split; [exact H3|]. split; [exact H4|].
  exact (Read_out_of_range_without_wrap World ReadFile opened ∅ opened_desc (zeros 2)
           asset (request 3 2) H1 H2 request_in_range_3_2 H3 H4).
Defined.

Lemma Read_returns_without_wrap_witness :
  transfer_in_range (request 3 2) /\
  uFilePosition (request 3 2) + uRequestedSize (request 3 2) <= UINT64_MAX /\
  uRequestedSize (request 3 2) <= Z.of_nat (length (zeros 2)) /\
  exists res out' w',
    Read World ReadFile opened ∅ opened_desc (zeros 2) (request 3 2)
    = Returns (res, opened, out', w').
Proof.
  assert (H3 : uFilePosition (request 3 2) + uRequestedSize (request 3 2) <= UINT64_MAX)
    by (unfold UINT64_MAX; simpl; lia).
  assert (H4 : uRequestedSize (request 3 2) <= Z.of_nat (length (zeros 2)))
    by (simpl; lia).
  split; [exact request_in_range_3_2|]. split; [exact H3|]. split; [exact H4|].
  exact (Read_returns_without_wrap World ReadFile opened ∅ opened_desc (zeros 2)
           (request 3 2) request_in_range_3_2 H3 H4).
Defined.

Lemma Read_window_after_Open_witness :
  (forall id, 0 <= file_size_by_id id <= SIZE_MAX) /\
  key_in_range (m_nextPackageFileID fresh) /\
  Open file_size_by_id read_file_by_id fresh 16 no_desc
  = Returns (AK_Success, opened, opened_desc) /\
  transfer_in_range (request 1 2) /\
  uFilePosition (request 1 2) + uRequestedSize (request 1 2) <= iFileSize opened_desc /\
  uRequestedSize (request 1 2) <= Z.of_nat (length (zeros 2)) /\
  exists buffer,
    m_packageFiles opened !! m_nextPackageFileID fresh = Some buffer /\
    Read World ReadFile opened ∅ opened_desc (zeros 2) (request 1 2)
    = Returns (AK_Success, opened,
               take (Z.to_nat (uRequestedSize (request 1 2)))
                    (drop (Z.to_nat (uFilePosition (request 1 2))) buffer)
               ++ drop (Z.to_nat (uRequestedSize (request 1 2))) (zeros 2),
               ∅).
Proof.
  assert (H0 : key_in_range (m_nextPackageFileID fresh))
    by (unfold key_in_range; simpl; lia).
  assert (H1 : Open file_size_by_id read_file_by_id fresh 16 no_desc
               = Returns (AK_Success, opened, opened_desc))
    by (vm_compute; reflexivity).
  assert (H3 : uFilePosition (request 1 2) + uRequestedSize (request 1 2)
               <= iFileSize opened_desc) by (simpl; lia).
  assert (H4 : uRequestedSize (request 1 2) <= Z.of_nat (length (zeros 2)))
    by (simpl; lia).
  split; [exact file_size_by_id_range|]. split; [exact H0|]. split; [exact H1|].
  split; [exact request_in_range_1_2|]. split; [exact H3|]. split; [exact H4|].
  exact (Read_window_after_Open file_size_by_id read_file_by_id file_size_by_id_range
           World ReadFile fresh 16 no_desc opened opened_desc ∅ (zeros 2) (request 1 2)
           H0 H1 request_in_range_1_2 H3 H4).
Defined.

Lemma Close_twice_witness :
  handle_is_package (hFile opened_desc) = true /\
  (Close World CloseFile (Close World CloseFile opened ∅ opened_desc).1.2
     (Close World CloseFile opened ∅ opened_desc).2 opened_desc
   = Close World CloseFile opened ∅ opened_desc /\
   (m_packageFiles opened !! handle_file_id (hFile opened_desc) = None ->
    Close World CloseFile opened ∅ opened_desc = (AK_Success, opened, ∅))).
Proof.
  assert (H : handle_is_package (hFile opened_desc) = true) by reflexivity.
  split; [exact H | exact (Close_twice World CloseFile opened ∅ opened_desc H)].
Defined.

(** Two live package files: closing the first leaves reads of the second. *)
Lemma Close_frame_witness :
  handle_file_id (hFile reopened_desc) <> handle_file_id (hFile opened_desc) /\
  ((forall (w' : World) (out : list byte) (ti : AkIOTransferInfo),
       transfer_result World
         (Read World ReadFile (Close World CloseFile two_files ∅ opened_desc).1.2 w'
            reopened_desc out ti)
       = transfer_result World (Read World ReadFile two_files w' reopened_desc out ti)) /\
   m_nextPackageFileID (Close World CloseFile two_files ∅ opened_desc).1.2
   = m_nextPackageFileID two_files /\
   m_deviceID (Close World CloseFile two_files ∅ opened_desc).1.2 = m_deviceID two_files).
Proof.
  assert (H : handle_file_id (hFile reopened_desc) <> handle_file_id (hFile opened_desc))
    by (vm_compute; discriminate).
  split; [exact H|].
  exact (Close_frame World ReadFile CloseFile two_files ∅ opened_desc reopened_desc H).
Defined.

(** A second open leaves reads through the first descriptor. *)
Lemma Open_frame_witness :
  Open file_size_by_id read_file_by_id opened 16 no_desc
  = Returns (AK_Success, opened_twice, reopened_desc) /\
  handle_file_id (hFile opened_desc) <> m_nextPackageFileID opened /\
  forall (w : World) (out : list byte) (ti : AkIOTransferInfo),
    transfer_result World (Read World ReadFile opened_twice w opened_desc out ti)
    = transfer_result World (Read World ReadFile opened w opened_desc out ti).
Proof.
  assert (H1 : Open file_size_by_id read_file_by_id opened 16 no_desc
               = Returns (AK_Success, opened_twice, reopened_desc))
    by (vm_compute; reflexivity).
  assert (H2 : handle_file_id (hFile opened_desc) <> m_nextPackageFileID opened)
    by (vm_compute; discriminate).
  split; [exact H1|]. split; [exact H2|].
  exact (Open_frame file_size_by_id read_file_by_id World ReadFile opened 16 no_desc
           AK_Success opened_twice reopened_desc opened_desc H1 H2).
Defined.

(** Open, Close, Open from the fresh hook. *)
Lemma run_keeps_keys_below_counter_witness :
  keys_below_counter fresh /\
  0 <= m_nextPackageFileID fresh /\
  m_nextPackageFileID fresh
  + Z.of_nat (length [call_Open 16 no_desc; call_Close opened_desc; call_Open 16 no_desc])
  <= UINT64_MAX /\
  run file_size_by_id read_file_by_id World ReadFile WriteFile CloseFile
    [call_Open 16 no_desc; call_Close opened_desc; call_Open 16 no_desc] fresh ∅
  = Some (reopened, ∅) /\
  (keys_below_counter reopened /\
   m_nextPackageFileID fresh <= m_nextPackageFileID reopened
   <= m_nextPackageFileID fresh
      + Z.of_nat (length [call_Open 16 no_desc; call_Close opened_desc;
                          call_Open 16 no_desc])).
Proof.
  assert (H1 : 0 <= m_nextPackageFileID fresh) by (simpl; lia).
  assert (H2 : m_nextPackageFileID fresh
               + Z.of_nat (length [call_Open 16 no_desc; call_Close opened_desc;
                                   call_Open 16 no_desc])
               <= UINT64_MAX) by (unfold UINT64_MAX; simpl; lia).
  assert (H3 : run file_size_by_id read_file_by_id World ReadFile WriteFile CloseFile
                 [call_Open 16 no_desc; call_Close opened_desc; call_Open 16 no_desc]
                 fresh ∅
               = Some (reopened, ∅)) by (vm_compute; reflexivity).
  split; [exact fresh_keys_below_counter|]. split; [exact H1|]. split; [exact H2|].
  split; [exact H3|].
  exact (run_keeps_keys_below_counter file_size_by_id read_file_by_id World ReadFile
           WriteFile CloseFile
           [call_Open 16 no_desc; call_Close opened_desc; call_Open 16 no_desc]
           fresh ∅ reopened ∅ fresh_keys_below_counter H1 H2 H3).
Defined.

Lemma opened_keys_below_counter : keys_below_counter opened.
Proof.
  intros k [buffer Hk]. simpl in Hk.
  apply lookup_singleton_Some in Hk. destruct Hk as [<- _]. simpl. lia.
Defined.

(** A second open on the hook that holds the first file of the scenario. *)
Lemma Open_takes_fresh_key_witness :
  keys_below_counter opened /\
  Open file_size_by_id read_file_by_id opened 16 no_desc
  = Returns (AK_Success, opened_twice, reopened_desc) /\
  (m_packageFiles opened !! m_nextPackageFileID opened = None /\
   (forall k buffer, m_packageFiles opened !! k = Some buffer ->
                     m_packageFiles opened_twice !! k = Some buffer) /\
   size (m_packageFiles opened_twice) = S (size (m_packageFiles opened))).
Proof.
  assert (H1 : Open file_size_by_id read_file_by_id opened 16 no_desc
               = Returns (AK_Success, opened_twice, reopened_desc))
    by (vm_compute; reflexivity).
  split; [exact opened_keys_below_counter|]. split; [exact H1|].
  exact (Open_takes_fresh_key file_size_by_id read_file_by_id opened 16 no_desc
           opened_twice reopened_desc opened_keys_below_counter H1).
Defined.

(** The same, run: the first file is still under key 0 after the second
    open, and the store holds two files. *)
Example Open_keeps_live_file :
  m_packageFiles opened !! 0 = Some asset /\
  m_packageFiles opened_twice !! 0 = Some asset /\
  m_packageFiles opened_twice !! 1 = Some asset /\
  size (m_packageFiles opened) = 1%nat /\
  size (m_packageFiles opened_twice) = 2%nat.
Proof. repeat split; vm_compute; reflexivity. Qed.

(** ["music.wem"] opened by name: handle 8 is native. *)
Lemma Open_by_name_then_transfer_witness :
  OpenFile ∅ "music.wem"%string 0 false false (hFile no_desc)
  = (AK_Success, 8, music_open) /\
  exists d,
    Open_by_name World String.string Z OpenFile GetFileSize fresh ∅ "music.wem"%string 0
      some_flags no_desc
    = Returns (AK_Success, fresh, d, music_open) /\
    hFile d = 8 /\
    (0 <= 8 < 2 ^ 31 ->
     (forall (w2 : World) (out : list byte) (ti : AkIOTransferInfo),
         let os := ReadFile w2 8 (uRequestedSize ti)
                     (overlapped_Offset (uFilePosition ti))
                     (overlapped_OffsetHigh (uFilePosition ti)) in
         Read World ReadFile fresh w2 d out ti
         = Returns (if os.1.1 then AK_Success else AK_Fail, fresh,
                    store_bytes out os.1.2, os.2)) /\
     (forall w2 : World,
         Close World CloseFile fresh w2 d
         = ((CloseFile w2 8).1, fresh, (CloseFile w2 8).2))) /\
    (2 ^ 31 <= 8 <= UINT64_MAX ->
     forall w2 : World,
       Close World CloseFile fresh w2 d
       = (AK_Success, erase_file fresh (handle_file_id 8), w2)).
Proof.
  assert (H : OpenFile ∅ "music.wem"%string 0 false false (hFile no_desc)
              = (AK_Success, 8, music_open)) by (vm_compute; reflexivity).
  split; [exact H|].
  exact (Open_by_name_then_transfer World ReadFile CloseFile String.string Z OpenFile
           GetFileSize fresh ∅ "music.wem"%string 0 {| uCacheID := 0 |} no_desc
           8 music_open H).
Defined.

(** The name-based open and the reads of the scenario file, run. *)
Example Open_by_name_run :
  Open_by_name World String.string Z OpenFile GetFileSize fresh ∅ "music.wem"%string 0
    some_flags no_desc
  = Returns (AK_Success, fresh, music_desc, music_open) /\
  Open_by_name World String.string Z OpenFile GetFileSize fresh ∅ "absent.wem"%string 0
    some_flags no_desc
  = Returns (AK_FileNotFound, fresh, desc_of_invalid, ∅) /\
  Read World ReadFile fresh music_open music_desc (zeros 2) (request 1 2)
  = Returns (AK_Success, fresh, [x0b; x0c], music_open) /\
  Close World CloseFile fresh music_open music_desc = (AK_Success, fresh, ∅).
Proof.
  split; [vm_compute; reflexivity|]. split; [vm_compute; reflexivity|].
  split; vm_compute; reflexivity.
Qed.

(** Init and Term of the blocking hook on the empty streaming manager. *)
Lemma Init_Term_resolver_witness :
  resolver_slot_laws StreamMgr GetFileLocationResolver SetFileLocationResolver
    CreateDevice DestroyDevice /\
  uSchedulerTypeFlags blocking = AK_SCHEDULER_BLOCKING /\
  (let i := Init StreamMgr GetFileLocationResolver SetFileLocationResolver CreateDevice
              AK_SCHEDULER_BLOCKING AK_INVALID_DEVICE_ID fresh 4096 no_mgr blocking in
   let t := Term StreamMgr GetFileLocationResolver SetFileLocationResolver DestroyDevice
              i.1.2 4096 i.2 in
   (GetFileLocationResolver no_mgr = None ->
    GetFileLocationResolver i.2 = Some 4096 /\ GetFileLocationResolver t.2 = None) /\
   (forall p, GetFileLocationResolver no_mgr = Some p ->
              GetFileLocationResolver i.2 = Some p /\
              GetFileLocationResolver t.2 = if p =? 4096 then None else Some p) /\
   t.1 = i.1.2).
Proof.
  assert (H : uSchedulerTypeFlags blocking = AK_SCHEDULER_BLOCKING) by reflexivity.
  split; [exact scenario_resolver_slot|]. split; [exact H|].
  exact (Init_Term_resolver StreamMgr GetFileLocationResolver SetFileLocationResolver
           CreateDevice AK_SCHEDULER_BLOCKING AK_INVALID_DEVICE_ID DestroyDevice
           fresh 4096 no_mgr blocking scenario_resolver_slot H).
Defined.

(** Init and Term where another resolver is registered, run: it stays. *)
Example Init_Term_other_resolver :
  GetFileLocationResolver
    (Term StreamMgr GetFileLocationResolver SetFileLocationResolver DestroyDevice
       (Init StreamMgr GetFileLocationResolver SetFileLocationResolver CreateDevice
          AK_SCHEDULER_BLOCKING AK_INVALID_DEVICE_ID fresh 4096 other_mgr blocking).1.2
       4096
       (Init StreamMgr GetFileLocationResolver SetFileLocationResolver CreateDevice
          AK_SCHEDULER_BLOCKING AK_INVALID_DEVICE_ID fresh 4096 other_mgr blocking).2).2
  = Some 512.
Proof. vm_compute. reflexivity. Qed.

(** The descriptor of the scenario is closed, the ID opened again and read. *)
Lemma Read_stale_after_run_witness :
  handle_is_package (hFile opened_desc) = true /\
  handle_file_id (hFile opened_desc) < m_nextPackageFileID opened /\
  0 <= m_nextPackageFileID opened /\
  m_nextPackageFileID opened
  + Z.of_nat (length [call_Open 16 no_desc; call_Read reopened_desc (zeros 4) (request 0 4)])
  <= UINT64_MAX /\
  run file_size_by_id read_file_by_id World ReadFile WriteFile CloseFile
    [call_Open 16 no_desc; call_Read reopened_desc (zeros 4) (request 0 4)]
    (Close World CloseFile opened ∅ opened_desc).1.2
    (Close World CloseFile opened ∅ opened_desc).2
  = Some (reopened, ∅) /\
  forall (w'' : World) (out : list byte) (ti : AkIOTransferInfo),
    Read World ReadFile reopened w'' opened_desc out ti
    = Returns (AK_Fail, reopened, out, w'').
Proof.
  assert (H1 : handle_is_package (hFile opened_desc) = true) by reflexivity.
  assert (H2 : handle_file_id (hFile opened_desc) < m_nextPackageFileID opened)
    by (vm_compute; reflexivity).
  assert (H3 : 0 <= m_nextPackageFileID opened) by (simpl; lia).
  assert (H4 : m_nextPackageFileID opened
               + Z.of_nat (length [call_Open 16 no_desc;
                                   call_Read reopened_desc (zeros 4) (request 0 4)])
               <= UINT64_MAX) by (unfold UINT64_MAX; simpl; lia).
  assert (H5 : run file_size_by_id read_file_by_id World ReadFile WriteFile CloseFile
                 [call_Open 16 no_desc; call_Read reopened_desc (zeros 4) (request 0 4)]
                 (Close World CloseFile opened ∅ opened_desc).1.2
                 (Close World CloseFile opened ∅ opened_desc).2
               = Some (reopened, ∅)) by (vm_compute; reflexivity).
  split; [exact H1|]. split; [exact H2|]. split; [exact H3|]. split; [exact H4|].
  split; [exact H5|].
  exact (Read_stale_after_run file_size_by_id read_file_by_id World ReadFile WriteFile
           CloseFile opened ∅ opened_desc
           [call_Open 16 no_desc; call_Read reopened_desc (zeros 4) (request 0 4)]
           reopened ∅ H1 H2 H3 H4 H5).
Defined.

(** Init gives device 0; an open by file ID follows. *)
Lemma device_identity_stamped_witness :
  uSchedulerTypeFlags blocking = AK_SCHEDULER_BLOCKING /\
  run file_size_by_id read_file_by_id World ReadFile WriteFile CloseFile
    [call_Open 16 no_desc]
    (Init StreamMgr GetFileLocationResolver SetFileLocationResolver CreateDevice
       AK_SCHEDULER_BLOCKING AK_INVALID_DEVICE_ID fresh 4096 no_mgr blocking).1.2 ∅
  = Some (opened_on_device_0, ∅) /\
  (let mgr1 := match GetFileLocationResolver no_mgr with
               | None => SetFileLocationResolver (Some 4096) no_mgr
               | Some _ => no_mgr
               end in
   let id := (CreateDevice blocking 4096 mgr1).1 in
   (forall dd,
       DeviceDesc.deviceID
         (GetDeviceDesc OsStrLen SafeStrCpy AK_MONITOR_DEVICENAME_MAXLENGTH
            opened_on_device_0 dd) = id /\
       DeviceDesc.bCanRead
         (GetDeviceDesc OsStrLen SafeStrCpy AK_MONITOR_DEVICENAME_MAXLENGTH
            opened_on_device_0 dd) = true /\
       DeviceDesc.bCanWrite
         (GetDeviceDesc OsStrLen SafeStrCpy AK_MONITOR_DEVICENAME_MAXLENGTH
            opened_on_device_0 dd) = false) /\
   (forall in_fileID d0 this'' d,
       Open file_size_by_id read_file_by_id opened_on_device_0 in_fileID d0
       = Returns (AK_Success, this'', d) -> deviceID d = id) /\
   (forall w2 name mode flags d0 this'' d w3,
       Open_by_name World String.string Z OpenFile GetFileSize opened_on_device_0 w2
         name mode flags d0
       = Returns (AK_Success, this'', d, w3) -> deviceID d = id)).
Proof.
  assert (H1 : uSchedulerTypeFlags blocking = AK_SCHEDULER_BLOCKING) by reflexivity.
  assert (H2 : run file_size_by_id read_file_by_id World ReadFile WriteFile CloseFile
                 [call_Open 16 no_desc]
                 (Init StreamMgr GetFileLocationResolver SetFileLocationResolver
                    CreateDevice AK_SCHEDULER_BLOCKING AK_INVALID_DEVICE_ID
                    fresh 4096 no_mgr blocking).1.2 ∅
               = Some (opened_on_device_0, ∅)) by (vm_compute; reflexivity).
  split; [exact H1|]. split; [exact H2|].
  exact (device_identity_stamped file_size_by_id read_file_by_id World ReadFile WriteFile
           CloseFile StreamMgr GetFileLocationResolver SetFileLocationResolver
           CreateDevice AK_SCHEDULER_BLOCKING AK_INVALID_DEVICE_ID String.string Z
           OpenFile GetFileSize OsStrLen SafeStrCpy AK_MONITOR_DEVICENAME_MAXLENGTH
           fresh 4096 no_mgr blocking [call_Open 16 no_desc] ∅ opened_on_device_0 ∅
           H1 H2).
Defined.

(** The device description of the scenario hook, run: the name is whole. *)
Example GetDeviceDesc_run :
  GetDeviceDesc OsStrLen SafeStrCpy AK_MONITOR_DEVICENAME_MAXLENGTH opened_on_device_0
    no_device_desc
  = {| DeviceDesc.deviceID := 0; DeviceDesc.bCanWrite := false;
       DeviceDesc.bCanRead := true; DeviceDesc.szDeviceName := szDeviceName_text;
       DeviceDesc.uStringSize := 14 |}.
Proof. vm_compute. reflexivity. Qed.

(** The static object, initialised, opens ID [0x10]. *)
Lemma static_hook_handles_witness :
  run file_size_by_id read_file_by_id World ReadFile WriteFile CloseFile
    [call_Open 16 no_desc]
    (InitTigerStreamMgr StreamMgr GetFileLocationResolver SetFileLocationResolver
       CreateDevice AK_SCHEDULER_BLOCKING AK_INVALID_DEVICE_ID
       (g_lowLevelIO AK_INVALID_DEVICE_ID) 4096 no_mgr blocking).1.2 ∅
  = Some (opened_on_device_0, ∅) /\
  Z.of_nat (length [call_Open 16 no_desc]) < 2 ^ 31 /\
  (key_in_range (m_nextPackageFileID opened_on_device_0) /\
   forall in_fileID d0 this' d,
     Open file_size_by_id read_file_by_id opened_on_device_0 in_fileID d0
     = Returns (AK_Success, this', d) ->
     handle_file_id (hFile d) = m_nextPackageFileID opened_on_device_0 /\
     is_Some (m_packageFiles this' !! handle_file_id (hFile d))).
Proof.
  assert (H1 : run file_size_by_id read_file_by_id World ReadFile WriteFile CloseFile
                 [call_Open 16 no_desc]
                 (InitTigerStreamMgr StreamMgr GetFileLocationResolver
                    SetFileLocationResolver CreateDevice AK_SCHEDULER_BLOCKING
                    AK_INVALID_DEVICE_ID (g_lowLevelIO AK_INVALID_DEVICE_ID)
                    4096 no_mgr blocking).1.2 ∅
               = Some (opened_on_device_0, ∅)) by (vm_compute; reflexivity).
  assert (H2 : Z.of_nat (length [call_Open 16 no_desc]) < 2 ^ 31) by (simpl; lia).
  split; [exact H1|]. split; [exact H2|].
  exact (static_hook_handles file_size_by_id read_file_by_id World ReadFile WriteFile
           CloseFile StreamMgr GetFileLocationResolver SetFileLocationResolver
           CreateDevice AK_SCHEDULER_BLOCKING AK_INVALID_DEVICE_ID 4096 no_mgr blocking
           [call_Open 16 no_desc] ∅ opened_on_device_0 ∅ H1 H2).
Defined.
